(** * Smart Bookmark App: the synchronisation logic of [src/app/page.js]

    The [Home] component keeps five pieces of React state ([user],
    [bookmarks], [title], [url], [loading]) and talks to three outside
    parties: the Supabase auth session, the [bookmarks] table with its
    realtime channel, and the browser ([console.error], [alert]).

    Every handler of the component is an [async] function with a single
    [await].  It is embedded as two computations in a state monad over
    [World]: the part that runs up to the [await] (it records the request
    and what the closure has captured), and the part that runs when the
    answer arrives.  A handler reads the state cells as the render it was
    created in has them; that render is taken to be the current one when
    the handler is called, and what the continuation still uses after the
    [await] is kept with the pending request.  The calls made to the
    outside are kept, in order, in [calls], so that "before the request
    is issued" is a statement about that list.

    The Supabase client itself is not part of [page.js].  The answers to
    requests are events of the model.  Two parts of the client are
    modelled, each under its own heading: the one channel per topic of
    the realtime client, which makes a second [subscribeToChanges] throw
    while a channel is held, and the answer to the query of
    [fetchBookmarks] over a table. *)

From Stdlib Require Import String Ascii List ZArith Bool Lia.
From Stdlib Require Import Sorting.Sorted Sorting.Permutation.
From ExtLib Require Import Structures.Monad Structures.MonadState.
From ExtLib Require Import Data.Monads.StateMonad.
Import ListNotations.
Import MonadNotation.
Local Open Scope monad_scope.
Local Open Scope string_scope.

(** ** Data *)

(** [session.user]: the fields the component reads. *)
Record User := mkUser { uid : string; email : string }.

(** A row of the [bookmarks] table. *)
Module Row.
Record t := mk
  { id : Z; title : string; url : string; user_id : string; created_at : Z }.
End Row.

(** The five [useState] cells (lines 7-11). *)
Record State := mkComponent
  { user : option User;
    bookmarks : list Row.t;
    title : string;
    url : string;
    loading : bool }.

(** The [{ data, error }] object a Supabase request resolves to; [error]
    is the error's message. *)
Record Result (A : Type) := mkResult { data : option A; error : option string }.
Arguments mkResult {A} _ _.
Arguments data {A} _.
Arguments error {A} _.

(** Everything the component asks of the outside, in program order. *)
Inductive Call :=
| AuthGetSession
| AuthOnAuthStateChange
| AuthUnsubscribe
| AuthSignInWithOAuth (provider : string)
| AuthSignOut
| DbSelect (userId : string)
| DbInsert (title url user_id : string)
| DbDelete (id : Z)
| ChannelSubscribe (ch : nat) (topic : string)
| RemoveChannel (ch : nat)
| ConsoleError (label msg : string)
| Alert (msg : string)
| SetUser (u : option User)
| SetBookmarks (bs : list Row.t)
| SetTitle (v : string)
| SetUrl (v : string)
| SetLoading (b : bool).

(** A request that has been issued and not yet answered, with the values
    its continuation has closed over. *)
Inductive Pending :=
| AwaitSession
| AwaitSelect (userId : string)
| AwaitInsert (bookmarks : list Row.t)
| AwaitDelete (originalBookmarks : list Row.t)
| AwaitSignIn
| AwaitSignOut.

(** The answers.  [data] of the insert, which is followed by [select()],
    is the array of the inserted rows, given here by its first element
    and the rest. *)
Inductive Response :=
| SessionData (session : option User)
| SelectResult (r : Result (list Row.t))
| InsertResult (r : Result (Row.t * list Row.t))
| DeleteResult (r : Result unit)
| SignInDone
| SignOutDone.

(** A subscribed realtime channel and the [userId] its callback holds. *)
Record Channel := mkChannel { ch_id : nat; ch_user : string }.

Record World := mkWorld
  { react : State;
    inflight : list Pending;
    channels : list Channel;
    next_channel : nat;
    listening : bool;
    calls : list Call }.

Definition initial_state : State :=
  {| user := None; bookmarks := []; title := ""; url := ""; loading := true |}.

Definition initial_world : World :=
  {| react := initial_state; inflight := []; channels := [];
     next_channel := 0; listening := false; calls := [] |}.

(** ** The monad of a handler *)

Definition M := state World.

Definition exec {A} (m : M A) (w : World) : World := snd (runState m w).

Definition call (c : Call) : M unit :=
  mkState (fun w => (tt, mkWorld (react w) (inflight w) (channels w)
                                 (next_channel w) (listening w) (calls w ++ [c]))).

Definition update (f : State -> State) : M unit :=
  mkState (fun w => (tt, mkWorld (f (react w)) (inflight w) (channels w)
                                 (next_channel w) (listening w) (calls w))).

Definition await (p : Pending) : M unit :=
  mkState (fun w => (tt, mkWorld (react w) (inflight w ++ [p]) (channels w)
                                 (next_channel w) (listening w) (calls w))).

Definition closure : M State :=
  mkState (fun w => (react w, w)).

Definition setUser (u : option User) : M unit :=
  call (SetUser u) ;;
  update (fun s => mkComponent u (bookmarks s) (title s) (url s) (loading s)).

Definition setBookmarks (bs : list Row.t) : M unit :=
  call (SetBookmarks bs) ;;
  update (fun s => mkComponent (user s) bs (title s) (url s) (loading s)).

Definition setTitle (v : string) : M unit :=
  call (SetTitle v) ;;
  update (fun s => mkComponent (user s) (bookmarks s) v (url s) (loading s)).

Definition setUrl (v : string) : M unit :=
  call (SetUrl v) ;;
  update (fun s => mkComponent (user s) (bookmarks s) (title s) v (loading s)).

Definition setLoading (b : bool) : M unit :=
  call (SetLoading b) ;;
  update (fun s => mkComponent (user s) (bookmarks s) (title s) (url s) b).

(** ** The regular expression of line 78

    [/^https?:\/\//i] is a sequence of characters, one of them optional,
    anchored at the start of the subject.  With the [i] flag and no [u]
    flag two characters match when their [Canonicalize] images (the upper
    case of a letter [a]-[z]; bytes outside ASCII stay apart from ASCII)
    are equal. *)

Inductive Atom :=
| Char (c : ascii)
| Optional (c : ascii).

Definition scheme_regex : list Atom :=
  [Char "h"; Char "t"; Char "t"; Char "p"; Optional "s";
   Char ":"; Char "/"; Char "/"]%char.

Definition canonicalize (ch : ascii) : ascii :=
  let n := nat_of_ascii ch in
  if ((97 <=? n) && (n <=? 122))%nat then ascii_of_nat (n - 32) else ch.

Definition same_char_i (c ch : ascii) : bool :=
  Ascii.eqb (canonicalize c) (canonicalize ch).

Fixpoint matches_at (re : list Atom) (s : string) : bool :=
  match re with
  | [] => true
  | Char c :: re' =>
      match s with
      | String ch s' => same_char_i c ch && matches_at re' s'
      | EmptyString => false
      end
  | Optional c :: re' =>
      match s with
      | String ch s' => same_char_i c ch && matches_at re' s'
      | EmptyString => false
      end
      || matches_at re' s
  end.

(** [re.test(s)] for a pattern that starts with [^]. *)
Definition test (re : list Atom) (s : string) : bool := matches_at re s.

(** ** The handlers *)

(** Lines 46-55. *)
Definition fetchBookmarks (userId : string) : M unit :=
  call (DbSelect userId) ;;
  await (AwaitSelect userId).

Definition fetchBookmarks_resume (r : Result (list Row.t)) : M unit :=
  match error r with
  | Some e => call (ConsoleError "Error fetching:" e)
  | None => setBookmarks (match data r with Some d => d | None => [] end)
  end.

(** [supabase.removeChannel(channel)], the body of the function that
    [subscribeToChanges] returns. *)
Definition removeChannel (ch : nat) : M unit :=
  call (RemoveChannel ch) ;;
  mkState (fun w =>
    (tt, mkWorld (react w) (inflight w)
                 (filter (fun c => negb (ch_id c =? ch)%nat) (channels w))
                 (next_channel w) (listening w) (calls w))).

(** A function body returns, or an exception leaves it; what it has
    done up to the throw stays done.  [inl] carries the message of the
    exception. *)
Definition Completion (A : Type) : Type := (string + A)%type.

Definition returned {A} (a : A) : M (Completion A) := ret (inr a).

(** [m], and then [k] unless [m] has thrown. *)
Definition unless_thrown {A B}
    (m : M (Completion A)) (k : A -> M (Completion B)) : M (Completion B) :=
  r <- m ;;
  match r with
  | inl e => ret (inl e)
  | inr a => k a
  end.

Definition discard {A} (m : M A) : M unit := _ <- m ;; ret tt.

(** Modelled from the spec: the realtime client behind
    [@/lib/supabaseClient], which is not under [src/].  Section 6 of the
    specification gives it [subscribeChanges] with a matching
    [unsubscribe(handle)], and section 5 has at most one handle at a
    time, torn down before a replacement is established.  The client
    keeps one channel per topic: [channel(topic)] hands back the channel
    it holds for the topic when it holds one, and [on(...)] throws on a
    channel that has been subscribed, so that [subscribe()] is not
    reached.  [page.js] uses the one topic ["realtime-bookmarks"], so a
    channel is held for it exactly when [channels] is not empty; the
    channel held keeps the callback, and with it the [userId], it was
    given when it was created. *)
Definition refusal : string :=
  "cannot add `postgres_changes` callbacks for realtime:realtime-bookmarks after `subscribe()`.".

Definition channel_on_subscribe (userId : string) : M (Completion nat) :=
  mkState (fun w =>
    match channels w with
    | [] =>
        let ch := next_channel w in
        (inr ch,
         mkWorld (react w) (inflight w)
                 (channels w ++ [mkChannel ch userId])
                 (S ch) (listening w)
                 (calls w ++ [ChannelSubscribe ch "realtime-bookmarks"]))
    | _ :: _ => (inl refusal, w)
    end).

(** Lines 57-72: the channel of the topic is asked for, given the
    callback and subscribed; the result is the function that would
    remove it.  The exception of the client, if any, is not caught. *)
Definition subscribeToChanges (userId : string) : M (Completion (M unit)) :=
  unless_thrown (channel_on_subscribe userId)
                (fun channel => returned (removeChannel channel)).

(** Lines 14-26. *)
Definition getSession : M unit :=
  call AuthGetSession ;;
  await AwaitSession.

Definition getSession_resume (session : option User) : M (Completion unit) :=
  unless_thrown
    match session with
    | Some currentUser =>
        setUser (Some currentUser) ;;
        fetchBookmarks (uid currentUser) ;;
        unless_thrown (subscribeToChanges (uid currentUser))
                      (fun _ => returned tt)
    | None => returned tt
    end
    (fun _ => setLoading false ;; returned tt).

(** Lines 29-38, the callback given to [onAuthStateChange]. *)
Definition onAuthStateChange (session : option User) : M (Completion unit) :=
  setUser session ;;
  unless_thrown
    match session with
    | Some u =>
        fetchBookmarks (uid u) ;;
        unless_thrown (subscribeToChanges (uid u)) (fun _ => returned tt)
    | None => setBookmarks [] ;; returned tt
    end
    (fun _ => setLoading false ;; returned tt).

(** Lines 13-44, the effect that runs once when the component mounts,
    and the function it returns for the unmount. *)
Definition useEffect : M unit :=
  getSession ;;
  call AuthOnAuthStateChange ;;
  mkState (fun w =>
    (tt, mkWorld (react w) (inflight w) (channels w)
                 (next_channel w) true (calls w))).

Definition useEffect_cleanup : M unit :=
  call AuthUnsubscribe ;;
  mkState (fun w =>
    (tt, mkWorld (react w) (inflight w) (channels w)
                 (next_channel w) false (calls w))).

(** Lines 74-103. *)
Definition finalUrl (url : string) : string :=
  if negb (test scheme_regex url) then "https://" ++ url else url.

Definition addBookmark : M unit :=
  s <- closure ;;
  if (title s =? "") || (url s =? "") then ret tt
  else
    match user s with
    | None => ret tt
    | Some u =>
        call (DbInsert (title s) (finalUrl (url s)) (uid u)) ;;
        await (AwaitInsert (bookmarks s))
    end.

Definition addBookmark_resume
    (bookmarks : list Row.t) (r : Result (Row.t * list Row.t)) : M unit :=
  match error r with
  | Some message =>
      call (ConsoleError "Error adding:" message) ;;
      call (Alert ("Error adding: " ++ message))
  | None =>
      match data r with
      | Some (data0, _) => setBookmarks (data0 :: bookmarks)
      | None => ret tt
      end ;;
      setTitle "" ;;
      setUrl ""
  end.

(** Lines 105-119. *)
Definition deleteBookmark (id : Z) : M unit :=
  s <- closure ;;
  let originalBookmarks := bookmarks s in
  setBookmarks
    (filter (fun bookmark => negb (Row.id bookmark =? id)%Z) (bookmarks s)) ;;
  call (DbDelete id) ;;
  await (AwaitDelete originalBookmarks).

Definition deleteBookmark_resume
    (originalBookmarks : list Row.t) (r : Result unit) : M unit :=
  match error r with
  | Some message =>
      call (ConsoleError "Error deleting:" message) ;;
      call (Alert ("Error deleting: " ++ message)) ;;
      setBookmarks originalBookmarks
  | None => ret tt
  end.

(** Lines 121-128. *)
Definition handleLogin : M unit :=
  call (AuthSignInWithOAuth "google") ;;
  await AwaitSignIn.

(** Lines 130-134. *)
Definition handleLogout : M unit :=
  call AuthSignOut ;;
  await AwaitSignOut.

Definition handleLogout_resume : M unit :=
  setUser None ;;
  setBookmarks [].

(** ** The event loop *)

Inductive Event :=
| Mount
| Unmount
| AuthStateChange (session : option User)
| PostgresChanges (ch : nat)
| Resolve (n : nat) (r : Response)
| ChangeTitle (v : string)
| ChangeUrl (v : string)
| ClickAdd
| ClickDelete (id : Z)
| ClickLogin
| ClickLogout.

(** The continuation of a pending request on its answer; [None] when the
    answer is not one that request can get. *)
Definition resume (p : Pending) (r : Response) : option (M unit) :=
  match p, r with
  | AwaitSession, SessionData session =>
      Some (discard (getSession_resume session))
  | AwaitSelect _, SelectResult res => Some (fetchBookmarks_resume res)
  | AwaitInsert bs, InsertResult res => Some (addBookmark_resume bs res)
  | AwaitDelete bs, DeleteResult res => Some (deleteBookmark_resume bs res)
  | AwaitSignIn, SignInDone => Some (ret tt)
  | AwaitSignOut, SignOutDone => Some handleLogout_resume
  | _, _ => None
  end.

Fixpoint remove_nth {A} (n : nat) (l : list A) : list A :=
  match l, n with
  | [], _ => []
  | _ :: l', O => l'
  | x :: l', S n' => x :: remove_nth n' l'
  end.

Definition settle (n : nat) : M unit :=
  mkState (fun w =>
    (tt, mkWorld (react w) (remove_nth n (inflight w)) (channels w)
                 (next_channel w) (listening w) (calls w))).

Definition step (w : World) (e : Event) : World :=
  match e with
  | Mount => exec useEffect w
  | Unmount => exec useEffect_cleanup w
  | AuthStateChange session =>
      if listening w then exec (onAuthStateChange session) w else w
  | PostgresChanges ch =>
      match find (fun c => (ch_id c =? ch)%nat) (channels w) with
      | Some c => exec (fetchBookmarks (ch_user c)) w
      | None => w
      end
  | Resolve n r =>
      match nth_error (inflight w) n with
      | Some p =>
          match resume p r with
          | Some k => exec (settle n ;; k) w
          | None => w
          end
      | None => w
      end
  | ChangeTitle v => exec (setTitle v) w
  | ChangeUrl v => exec (setUrl v) w
  | ClickAdd => exec addBookmark w
  | ClickDelete id => exec (deleteBookmark id) w
  | ClickLogin => exec handleLogin w
  | ClickLogout => exec handleLogout w
  end.

Definition run (w : World) (es : list Event) : World := fold_left step es w.

(** ** Vocabulary of the properties *)

(** The calls a handler adds to the log when it runs in [w]. *)
Definition issued {A} (m : M A) (w : World) : list Call :=
  skipn (length (calls w)) (calls (exec m w)).

(** The requests that go over the network to the table. *)
Definition is_request (c : Call) : bool :=
  match c with
  | DbSelect _ | DbInsert _ _ _ | DbDelete _ => true
  | _ => false
  end.

(** In [cs] the Collection is set to a list accepted by [expected], no
    request precedes that, and a request follows it. *)
Definition mutation_precedes_request
    (expected : list Row.t -> Prop) (cs : list Call) : Prop :=
  exists pre bs post,
    cs = (pre ++ SetBookmarks bs :: post)%list /\
    expected bs /\
    Forall (fun c => is_request c = false) pre /\
    Exists (fun c => is_request c = true) post.

(** What [add] needs to do anything: both fields filled in, somebody
    logged in. *)
Definition valid_add (w : World) : Prop :=
  title (react w) <> "" /\ url (react w) <> "" /\ user (react w) <> None.

(** The Collection without the entries that carry [id] (line 107). *)
Definition without (id : Z) (bs : list Row.t) : list Row.t :=
  filter (fun bookmark => negb (Row.id bookmark =? id)%Z) bs.

(** The optimistic insert at the head, as the specification words it. *)
Definition optimistic_add (w : World) : Prop :=
  mutation_precedes_request
    (fun bs => exists provisional, bs = provisional :: bookmarks (react w))
    (issued addBookmark w).

(** The optimistic removal of the entry with the given id. *)
Definition optimistic_remove (id : Z) (w : World) : Prop :=
  mutation_precedes_request
    (fun bs => bs = without id (bookmarks (react w)))
    (issued (deleteBookmark id) w).

(** The first sentence of section 5 on [add] and [remove], for every
    state of the component. *)
Definition mutations_precede_requests : Prop :=
  forall w : World,
    (valid_add w -> optimistic_add w) /\
    (forall id, optimistic_remove id w).

(** The scheme rule in the words of the specification: the input starts
    with [http://] or [https://] written in any mix of cases. *)
Definition to_lower (c : ascii) : ascii :=
  let n := nat_of_ascii c in
  if ((65 <=? n) && (n <=? 90))%nat then ascii_of_nat (n + 32) else c.

Fixpoint lowercase (s : string) : string :=
  match s with
  | EmptyString => EmptyString
  | String c s' => String (to_lower c) (lowercase s')
  end.

Definition carries_scheme (input : string) : Prop :=
  exists scheme rest,
    input = scheme ++ rest /\
    (lowercase scheme = "http://" \/ lowercase scheme = "https://").

(** A decision procedure for [carries_scheme]: [lit], in lower case, is
    what [s] starts with once [s] is put in lower case. *)
Fixpoint starts_with_lower (lit s : string) : bool :=
  match lit with
  | EmptyString => true
  | String l lit' =>
      match s with
      | String ch s' => Ascii.eqb (to_lower ch) l && starts_with_lower lit' s'
      | EmptyString => false
      end
  end.

(** The url that [add] hands to the table, if it hands over anything. *)
Definition persisted_url (w : World) : option string :=
  match issued addBookmark w with
  | [DbInsert _ u _] => Some u
  | _ => None
  end.

(** The Collection invariant. *)
Definition newer_first (a b : Row.t) : Prop :=
  (Row.created_at b <= Row.created_at a)%Z.

Definition ids (bs : list Row.t) : list Z := map Row.id bs.



(** Modelled from the spec: the answer of the Remote Store Adapter to the
    query of [fetchBookmarks], which lives in the Supabase client behind
    [@/lib/supabaseClient] and is not part of [page.js].  The request is
    [.eq("user_id", userId).order("created_at", { ascending: false })];
    by section 6 of the specification the answer is the rows of the table
    whose owner is [userId], ordered by [created_at] descending. *)
Fixpoint insert_desc (r : Row.t) (l : list Row.t) : list Row.t :=
  match l with
  | [] => [r]
  | x :: l' =>
      if (Row.created_at x <=? Row.created_at r)%Z then r :: l
      else x :: insert_desc r l'
  end.

Definition order_desc (l : list Row.t) : list Row.t :=
  fold_right insert_desc [] l.

Definition select_eq_order (table : list Row.t) (userId : string)
  : Result (list Row.t) :=
  {| data := Some (order_desc
                     (filter (fun r => Row.user_id r =? userId) table));
     error := None |}.




(** The subscriptions the realtime client holds open according to the
    log: those subscribed and not removed since. *)
Definition live_after (open : list nat) (c : Call) : list nat :=
  match c with
  | ChannelSubscribe ch _ => open ++ [ch]
  | RemoveChannel ch => filter (fun x => negb (x =? ch)%nat) open
  | _ => open
  end.

Definition live (cs : list Call) : list nat := fold_left live_after cs [].

Definition is_teardown (c : Call) : bool :=
  match c with RemoveChannel _ => true | _ => false end.

(** The table has [id] as its key. *)
Definition keyed (table : list Row.t) : Prop := NoDup (ids table).

(** Example data: the two identities and three rows of the scenarios. *)
Definition alice : User := {| uid := "A"; email := "a@example.com" |}.
Definition bob : User := {| uid := "B"; email := "b@example.com" |}.

Definition row1 : Row.t := Row.mk 1 "X" "https://x.com" "A" 20.
Definition row2 : Row.t := Row.mk 2 "Y" "https://y.com" "A" 10.
Definition row3 : Row.t := Row.mk 3 "Z" "https://z.com" "A" 30.

Definition table : list Row.t := [row1; row2; row3].


Definition no_teardown (cs : list Call) : bool :=
  forallb (fun c => negb (is_teardown c)) cs.

(** The component mounts and the session reports Alice. *)
Definition login : list Event := [Mount; AuthStateChange (Some alice)].

(** The session then passes to Bob. *)
Definition identity_change : list Event :=
  login ++ [AuthStateChange (Some bob)].




(** The component mounts with Alice's session, her three rows load, she
    logs out, and the session reports that nobody is logged in. *)
Definition login_logout : list Event :=
  [Mount;
   Resolve 0 (SessionData (Some alice));
   Resolve 0 (SelectResult (select_eq_order table "A"));
   ClickLogout;
   Resolve 0 SignOutDone;
   AuthStateChange None].

(** The table changes afterwards, and the query that follows is
    answered. *)
Definition late_notification : list Event :=
  [PostgresChanges 0;
   Resolve 0 (SelectResult (select_eq_order table "A"))].

(** Alice is logged in, sees her two bookmarks and has typed a third. *)
Definition typing_world : World :=
  {| react := {| user := Some alice; bookmarks := [row1; row2];
                 title := "Z"; url := "z.com"; loading := false |};
     inflight := []; channels := [mkChannel 0 "A"]; next_channel := 1;
     listening := true;
     calls := [] |}.

(** The same form with nobody logged in. *)
Definition anonymous_world : World :=
  {| react := {| user := None; bookmarks := [];
                 title := "Z"; url := "z.com"; loading := false |};
     inflight := []; channels := []; next_channel := 0;
     listening := true;
     calls := [] |}.

(** ** What the component renders (lines 136-242)

    Of the JSX only what depends on the state is kept: which of the three
    screens is returned, the values shown, whether the Add button is
    disabled, and the event each control is wired to. *)

(** One entry of the list (lines 204-227). *)
Record Item := mkItem
  { key : Z;
    href : string;
    text : string;
    caption : string;
    onDelete : Event }.

Inductive Listing :=
| NoBookmarksYet
| Listed (items : list Item).

Inductive View :=
| LoadingScreen
| LoginScreen (onLogin : Event)
| MainScreen (loggedInAs : string)
             (titleValue urlValue : string)
             (addDisabled : bool) (onAdd : Event)
             (listing : Listing)
             (onLogout : Event).

(** The item of one bookmark: [key={bookmark.id}], the link to
    [bookmark.url] that reads [bookmark.title], the url once more below
    it, and the button that calls [deleteBookmark(bookmark.id)]. *)
Definition item_of (bookmark : Row.t) : Item :=
  match bookmark with
  | Row.mk b_id b_title b_url _ _ =>
      mkItem b_id b_url b_title b_url (ClickDelete b_id)
  end.

Definition render (s : State) : View :=
  if loading s then LoadingScreen
  else
    match user s with
    | None => LoginScreen ClickLogin
    | Some u =>
        MainScreen (email u) (title s) (url s)
          ((title s =? "") || (url s =? "")) ClickAdd
          (if (length (bookmarks s) =? 0)%nat then NoBookmarksYet
           else Listed (map item_of (bookmarks s)))
          ClickLogout
    end.

(** The events a screen lets the user cause: typing in the two inputs,
    and a click on each button that is there and not disabled. *)
Definition offers (v : View) (e : Event) : Prop :=
  match v with
  | LoadingScreen => False
  | LoginScreen onLogin => e = onLogin
  | MainScreen _ _ _ addDisabled onAdd listing onLogout =>
      (exists v, e = ChangeTitle v) \/
      (exists v, e = ChangeUrl v) \/
      (addDisabled = false /\ e = onAdd) \/
      match listing with
      | NoBookmarksYet => False
      | Listed items => exists item, In item items /\ e = onDelete item
      end \/
      e = onLogout
  end.

(** ** Vocabulary of the further properties *)

(** The events whose handlers contain a [setBookmarks], directly or in
    what runs when their request is answered. *)
Definition may_set_bookmarks (e : Event) : bool :=
  match e with
  | AuthStateChange _ | Resolve _ _ | ClickDelete _ => true
  | _ => false
  end.

(** What is asked of a call for it to be in order: an insert carries a
    title that is not empty and a url on which the test of line 78
    succeeds, the loading flag is only ever lowered, and no channel is
    removed. *)
Definition call_in_order (c : Call) : bool :=
  match c with
  | DbInsert t u _ => negb (t =? "") && test scheme_regex u
  | SetLoading b => negb b
  | RemoveChannel _ => false
  | _ => true
  end.

(** A Collection in the order and with the keys of the invariant. *)
Definition ordered_and_keyed (bs : list Row.t) : Prop :=
  Sorted newer_first bs /\ keyed bs.

(** An answer without error. *)
Definition ok {A} (d : option A) : Result A := {| data := d; error := None |}.

(** A row that a second insert of the same form gives. *)
Definition row4 : Row.t := Row.mk 4 "Z" "https://z.com" "A" 31.

(** ** Proof steps that recur *)

Ltac world w :=
  destruct w as [[?user ?bookmarks ?title ?url ?loading]
                   ?inflight ?channels ?next ?listening ?calls].

Ltac log :=
  repeat rewrite <- app_assoc; simpl; try reflexivity.

Ltac emits :=
  first
    [ exists []; split;
      [ unfold exec; simpl; now rewrite app_nil_r | reflexivity ]
    | eexists; split;
      [ unfold exec; simpl; repeat rewrite <- app_assoc; reflexivity
      | reflexivity ] ].

Ltac effect_rest :=
  split; [ reflexivity |];
  split; [ reflexivity |];
  split; [ intros ?; simpl; rewrite ?app_nil_r; reflexivity |];
  split; [ reflexivity |];
  first [ left; reflexivity | right; reflexivity ].

Ltac effect :=
  unfold exec; simpl;
  first [ solve [ exists (@nil Call), (@nil Channel);
                  split; [ rewrite ?app_nil_r; reflexivity |];
                  split; [ rewrite ?app_nil_r; reflexivity |];
                  effect_rest ]
        | solve [ eexists; exists (@nil Channel);
                  split; [ repeat rewrite <- app_assoc; reflexivity |];
                  split; [ rewrite ?app_nil_r; reflexivity |];
                  effect_rest ]
        | solve [ eexists; eexists;
                  split; [ repeat rewrite <- app_assoc; reflexivity |];
                  split; [ reflexivity |];
                  effect_rest ] ].

(** * Properties *)

Local Open Scope list_scope.

(** ** Lists and the log *)

Lemma nth_error_snoc {A} (l : list A) (p : A) :
  nth_error (l ++ [p]) (length l) = Some p.
Proof. induction l; simpl; auto. Qed.

Lemma remove_nth_snoc {A} (l : list A) (p : A) :
  remove_nth (length l) (l ++ [p]) = l.
Proof. induction l; simpl; congruence. Qed.

Lemma skipn_length_app {A} (l k : list A) : skipn (length l) (l ++ k) = k.
Proof. induction l; simpl; auto. Qed.

Lemma issued_spec {A} (m : M A) (w : World) (cs : list Call) :
  calls (exec m w) = calls w ++ cs -> issued m w = cs.
Proof. unfold issued. intros ->. apply skipn_length_app. Qed.

(** ** [add] does nothing without its inputs *)

(** C10: [add] is a no-op (no call of any kind, no pending request, the
    whole state as it was) when the title is empty, when the url is empty,
    and also when nobody is logged in, whatever the two fields hold. *)
Theorem add_noop_without_inputs_or_identity (w : World) :
  title (react w) = "" \/ url (react w) = "" \/ user (react w) = None ->
  step w ClickAdd = w /\ issued addBookmark w = [].
Proof.
  intros H. world w. simpl in H.
  assert (E : exec addBookmark
                (mkWorld (mkComponent user0 bookmarks0 title0 url0 loading0)
                   inflight0 channels0 next listening0 calls0)
              = mkWorld (mkComponent user0 bookmarks0 title0 url0 loading0)
                   inflight0 channels0 next listening0 calls0).
  { unfold exec, addBookmark. simpl.
    destruct H as [-> | [-> | ->]]; simpl.
    - reflexivity.
    - rewrite orb_true_r. reflexivity.
    - destruct (_ || _); reflexivity. }
  split.
  - exact E.
  - apply issued_spec. rewrite E. simpl. now rewrite app_nil_r.
Qed.

(** ** Answers to pending requests *)

Lemma step_resolve (w : World) n r p k :
  nth_error (inflight w) n = Some p ->
  resume p r = Some k ->
  step w (Resolve n r) = exec (settle n ;; k) w.
Proof. intros Hp Hk. simpl. now rewrite Hp, Hk. Qed.

(** C5: when the query of a [load] fails, the failure is written to the
    console and nothing else happens: the Collection and every other
    piece of state are as before, no subscription changes, and the only
    call made is the [console.error]. *)
Theorem failed_load_keeps_collection
    (w : World) (n : nat) (userId : string)
    (d : option (list Row.t)) (msg : string) :
  nth_error (inflight w) n = Some (AwaitSelect userId) ->
  let w' := step w (Resolve n (SelectResult {| data := d; error := Some msg |})) in
  react w' = react w /\
  channels w' = channels w /\
  listening w' = listening w /\
  inflight w' = remove_nth n (inflight w) /\
  calls w' = calls w ++ [ConsoleError "Error fetching:" msg].
Proof.
  intros Hp w'. subst w'.
  erewrite step_resolve by (eassumption || reflexivity).
  world w. repeat split.
Qed.

(** What [add] does up to its [await] when its guard lets it through. *)
Lemma addBookmark_valid (w : World) (u : User) :
  title (react w) <> "" -> url (react w) <> "" -> user (react w) = Some u ->
  exec addBookmark w =
    mkWorld (react w)
            (inflight w ++ [AwaitInsert (bookmarks (react w))])
            (channels w) (next_channel w) (listening w)
            (calls w ++ [DbInsert (title (react w)) (finalUrl (url (react w)))
                                  (uid u)]).
Proof.
  intros Ht Hu Hs. world w. simpl in *. subst.
  apply String.eqb_neq in Ht, Hu.
  unfold exec, addBookmark. simpl. rewrite Ht, Hu. reflexivity.
Qed.

Lemma valid_add_user (w : World) :
  valid_add w ->
  exists u, title (react w) <> "" /\ url (react w) <> "" /\
            user (react w) = Some u.
Proof.
  intros (Ht & Hu & Hs). destruct (user (react w)) as [u|] eqn:E;
    [exists u; auto | congruence].
Qed.

(** C9: when the table rejects the insert of an [add], the Collection is
    the one from before the [add] (so is the rest of the state, the two
    form fields included), the error is written to the console and shown
    with [alert], and no request is issued again or left pending. *)
Theorem rejected_add_leaves_collection (w : World) (msg : string) :
  valid_add w ->
  let w1 := step w ClickAdd in
  let w2 := step w1 (Resolve (length (inflight w))
                       (InsertResult {| data := None; error := Some msg |})) in
  react w2 = react w /\
  inflight w2 = inflight w /\
  channels w2 = channels w /\
  (exists u, user (react w) = Some u /\
     calls w2 = calls w ++
       [DbInsert (title (react w)) (finalUrl (url (react w))) (uid u);
        ConsoleError "Error adding:" msg;
        Alert ("Error adding: " ++ msg)%string]).
Proof.
  intros Hv w1 w2. subst w1 w2.
  destruct (valid_add_user w Hv) as (u & Ht & Hu & Hs).
  change (step w ClickAdd) with (exec addBookmark w).
  rewrite (addBookmark_valid w u Ht Hu Hs).
  erewrite step_resolve; [ | apply nth_error_snoc | reflexivity ].
  unfold exec. simpl. rewrite remove_nth_snoc.
  repeat split. exists u. split; [assumption|]. now log.
Qed.

(** The error branch of [add] touches no state, whatever has happened
    while the insert was pending. *)
Lemma rejected_add_touches_nothing
    (w : World) (n : nat) (bs : list Row.t)
    (d : option (Row.t * list Row.t)) (msg : string) :
  nth_error (inflight w) n = Some (AwaitInsert bs) ->
  react (step w (Resolve n (InsertResult {| data := d; error := Some msg |})))
  = react w.
Proof.
  intros Hp. erewrite step_resolve by (eassumption || reflexivity).
  now world w.
Qed.

(** ** [remove] *)

(** What [remove] does up to its [await]. *)
Lemma deleteBookmark_exec (w : World) (id : Z) :
  exec (deleteBookmark id) w =
    mkWorld (mkComponent (user (react w)) (without id (bookmarks (react w)))
                         (title (react w)) (url (react w)) (loading (react w)))
            (inflight w ++ [AwaitDelete (bookmarks (react w))])
            (channels w) (next_channel w) (listening w)
            (calls w ++ [SetBookmarks (without id (bookmarks (react w)));
                         DbDelete id]).
Proof. world w. unfold exec, deleteBookmark, without. simpl. now log. Qed.

(** C4: [remove id] keeps the Collection of the moment it is called as
    its snapshot; when the table rejects the delete, in whatever world
    the rejection arrives, the Collection becomes that snapshot again, so
    every entry it held (the one with [id] among them) is back as it was,
    and the error is written to the console and shown with [alert]. *)
Theorem rejected_remove_restores_snapshot
    (w w' : World) (id : Z) (n : nat) (d : option unit) (msg : string) :
  nth_error (inflight w') n = Some (AwaitDelete (bookmarks (react w))) ->
  let w1 := step w (ClickDelete id) in
  let w2 := step w' (Resolve n (DeleteResult {| data := d; error := Some msg |})) in
  nth_error (inflight w1) (length (inflight w))
    = Some (AwaitDelete (bookmarks (react w))) /\
  bookmarks (react w1) = without id (bookmarks (react w)) /\
  bookmarks (react w2) = bookmarks (react w) /\
  (forall b, In b (bookmarks (react w)) -> Row.id b = id ->
             In b (bookmarks (react w2))) /\
  calls w2 = calls w' ++
    [ConsoleError "Error deleting:" msg;
     Alert ("Error deleting: " ++ msg)%string;
     SetBookmarks (bookmarks (react w))].
Proof.
  intros Hp w1 w2.
  assert (E2 : bookmarks (react w2) = bookmarks (react w) /\
               calls w2 = calls w' ++
                 [ConsoleError "Error deleting:" msg;
                  Alert ("Error deleting: " ++ msg)%string;
                  SetBookmarks (bookmarks (react w))]).
  { subst w2. erewrite step_resolve by (eassumption || reflexivity).
    world w'. unfold exec. simpl. split; [reflexivity | now log]. }
  destruct E2 as [E2 E3].
  subst w1. change (step w (ClickDelete id)) with (exec (deleteBookmark id) w).
  rewrite deleteBookmark_exec. simpl.
  repeat split; auto using nth_error_snoc.
  intros b Hb _. now rewrite E2.
Qed.

(** A confirmed delete changes nothing further. *)
Lemma delete_confirmed (w : World) (n : nat) (bs : list Row.t) (d : option unit) :
  nth_error (inflight w) n = Some (AwaitDelete bs) ->
  let w' := step w (Resolve n (DeleteResult {| data := d; error := None |})) in
  react w' = react w /\ inflight w' = remove_nth n (inflight w).
Proof.
  intros Hp w'. subst w'.
  erewrite step_resolve by (eassumption || reflexivity).
  now world w.
Qed.

(** ** [add] and then [remove] *)

Lemma without_fresh (id : Z) (bs : list Row.t) :
  ~ In id (ids bs) -> without id bs = bs.
Proof.
  unfold without, ids. induction bs as [|b bs IH]; simpl; intros H; auto.
  destruct (Z.eqb_spec (Row.id b) id) as [E|E]; simpl.
  - exfalso. auto.
  - f_equal. apply IH. tauto.
Qed.

(** C8: a successful [add] puts the row the table answers with at the
    head of the Collection; the [remove] of that row's id, right after,
    gives back the Collection from before the [add], and it stays so when
    the delete is confirmed.  The id is one the table has just assigned,
    so no entry of the Collection carries it. *)
Theorem add_then_remove_round_trip
    (w : World) (row : Row.t) (rest : list Row.t) :
  valid_add w ->
  ~ In (Row.id row) (ids (bookmarks (react w))) ->
  let w1 := step w ClickAdd in
  let w2 := step w1 (Resolve (length (inflight w))
                       (InsertResult {| data := Some (row, rest);
                                        error := None |})) in
  let w3 := step w2 (ClickDelete (Row.id row)) in
  let w4 := step w3 (Resolve (length (inflight w))
                       (DeleteResult {| data := None; error := None |})) in
  bookmarks (react w2) = row :: bookmarks (react w) /\
  bookmarks (react w3) = bookmarks (react w) /\
  bookmarks (react w4) = bookmarks (react w) /\
  inflight w4 = inflight w.
Proof.
  intros Hv Hfresh w1 w2 w3 w4.
  destruct (valid_add_user w Hv) as (u & Ht & Hu & Hs).
  assert (E2 : bookmarks (react w2) = row :: bookmarks (react w) /\
               inflight w2 = inflight w).
  { subst w2 w1. change (step w ClickAdd) with (exec addBookmark w).
    rewrite (addBookmark_valid w u Ht Hu Hs).
    erewrite step_resolve; [ | apply nth_error_snoc | reflexivity ].
    unfold exec. simpl. now rewrite remove_nth_snoc. }
  destruct E2 as [E2 I2].
  assert (E3 : bookmarks (react w3) = bookmarks (react w) /\
               inflight w3 = inflight w ++ [AwaitDelete (row :: bookmarks (react w))]).
  { subst w3. change (step w2 (ClickDelete (Row.id row)))
      with (exec (deleteBookmark (Row.id row)) w2).
    rewrite deleteBookmark_exec. simpl. rewrite E2, I2. split; auto.
    unfold without at 1. simpl. rewrite Z.eqb_refl. simpl.
    now apply without_fresh. }
  destruct E3 as [E3 I3].
  assert (E4 : react w4 = react w3 /\ inflight w4 = inflight w).
  { subst w4. clearbody w3.
    destruct (delete_confirmed w3 (length (inflight w)) _ None
                ltac:(rewrite I3; apply nth_error_snoc)) as [R I].
    split; [exact R|]. rewrite I, I3. apply remove_nth_snoc. }
  destruct E4 as [E4 I4].
  repeat split; congruence.
Qed.

(** ** Order of the local mutation and the request *)

Lemma issued_deleteBookmark (w : World) (id : Z) :
  issued (deleteBookmark id) w =
    [SetBookmarks (without id (bookmarks (react w))); DbDelete id].
Proof. apply issued_spec. now rewrite deleteBookmark_exec. Qed.

Lemma issued_addBookmark (w : World) (u : User) :
  title (react w) <> "" -> url (react w) <> "" -> user (react w) = Some u ->
  issued addBookmark w =
    [DbInsert (title (react w)) (finalUrl (url (react w))) (uid u)].
Proof.
  intros Ht Hu Hs. apply issued_spec.
  now rewrite (addBookmark_valid w u Ht Hu Hs).
Qed.

Lemma remove_is_optimistic (w : World) (id : Z) : optimistic_remove id w.
Proof.
  unfold optimistic_remove. rewrite issued_deleteBookmark.
  exists [], (without id (bookmarks (react w))), [DbDelete id].
  repeat split; auto.
Qed.

Lemma single_request_not_optimistic expected t u o :
  ~ mutation_precedes_request expected [DbInsert t u o].
Proof.
  intros (pre & bs & post & E & _).
  destruct pre as [|c pre]; simpl in E; [discriminate|].
  destruct pre; simpl in E; discriminate.
Qed.

(** C1, as the specification has it, at Alice's form: her [add] of
    ("Z", "z.com") with two bookmarks on screen issues the insert and
    nothing else; the Collection is not touched before the request. *)
Lemma add_issues_request_first :
  valid_add typing_world /\
  issued addBookmark typing_world = [DbInsert "Z" "https://z.com" "A"] /\
  bookmarks (react (step typing_world ClickAdd)) = [row1; row2] /\
  ~ optimistic_add typing_world /\
  ~ mutations_precede_requests.
Proof.
  assert (V : valid_add typing_world)
    by (repeat split; simpl; discriminate).
  assert (N : ~ optimistic_add typing_world)
    by (unfold optimistic_add; apply single_request_not_optimistic).
  repeat split; try (simpl; discriminate); auto.
  intros H. destruct (H typing_world) as [Ha _]. auto.
Qed.

(** C1, amended: [remove id] sets the Collection to the one without [id]
    and only then issues the delete.  [add] with valid inputs issues the
    insert first and leaves the Collection alone until the answer comes;
    on success the row of the answer is put in front of the Collection
    that [add] saw when it was called. *)
Theorem remove_mutates_first_add_requests_first (w : World) :
  (forall id,
     optimistic_remove id w /\
     issued (deleteBookmark id) w =
       [SetBookmarks (without id (bookmarks (react w))); DbDelete id] /\
     bookmarks (react (step w (ClickDelete id)))
       = without id (bookmarks (react w))) /\
  (valid_add w ->
   exists u, user (react w) = Some u /\
     issued addBookmark w =
       [DbInsert (title (react w)) (finalUrl (url (react w))) (uid u)] /\
     react (step w ClickAdd) = react w /\
     forall row rest,
       bookmarks (react (step (step w ClickAdd)
                           (Resolve (length (inflight w))
                              (InsertResult {| data := Some (row, rest);
                                               error := None |}))))
       = row :: bookmarks (react w)).
Proof.
  split.
  - intros id. split; [apply remove_is_optimistic|].
    split; [apply issued_deleteBookmark|].
    change (step w (ClickDelete id)) with (exec (deleteBookmark id) w).
    now rewrite deleteBookmark_exec.
  - intros Hv. destruct (valid_add_user w Hv) as (u & Ht & Hu & Hs).
    exists u. split; [assumption|].
    split; [now apply issued_addBookmark|].
    change (step w ClickAdd) with (exec addBookmark w).
    rewrite (addBookmark_valid w u Ht Hu Hs). split; [reflexivity|].
    intros row rest.
    erewrite step_resolve; [ | apply nth_error_snoc | reflexivity ].
    reflexivity.
Qed.

(** ** The scheme rule *)

(** On the characters of the pattern, matching under [i] is equality
    after lowering the subject. *)
Lemma same_char_i_lower (l ch : ascii) :
  In l ["h"; "t"; "p"; "s"; ":"; "/"]%char ->
  same_char_i l ch = Ascii.eqb (to_lower ch) l.
Proof.
  intros H. simpl in H.
  destruct H as [<- | [<- | [<- | [<- | [<- | [<- | []]]]]]];
    destruct ch as [[] [] [] [] [] [] [] []]; reflexivity.
Qed.

Lemma matches_chars (lits : list ascii) (s : string) :
  Forall (fun l => In l ["h"; "t"; "p"; "s"; ":"; "/"]%char) lits ->
  matches_at (map Char lits) s
  = starts_with_lower (string_of_list_ascii lits) s.
Proof.
  intros H. revert s. induction H as [|l lits Hl _ IH]; intros s; simpl.
  - reflexivity.
  - destruct s as [|ch s]; [reflexivity|].
    now rewrite IH, same_char_i_lower.
Qed.

Lemma matches_char (c : ascii) (re : list Atom) (ch : ascii) (s : string) :
  matches_at (Char c :: re) (String ch s)
  = same_char_i c ch && matches_at re s.
Proof. reflexivity. Qed.

Lemma matches_optional_tail (s : string) :
  matches_at [Optional "s"; Char ":"; Char "/"; Char "/"]%char s
  = starts_with_lower "://" s || starts_with_lower "s://" s.
Proof.
  change (matches_at [Optional "s"; Char ":"; Char "/"; Char "/"]%char s)
    with (match s with
          | String ch s' =>
              same_char_i "s" ch
              && matches_at (map Char [":"; "/"; "/"]%char) s'
          | EmptyString => false
          end || matches_at (map Char [":"; "/"; "/"]%char) s).
  rewrite orb_comm. f_equal.
  - apply matches_chars. repeat constructor; simpl; tauto.
  - destruct s as [|c5 s]; [reflexivity|].
    rewrite same_char_i_lower by (simpl; tauto).
    rewrite matches_chars by (repeat constructor; simpl; tauto).
    reflexivity.
Qed.

Lemma test_scheme_regex (s : string) :
  test scheme_regex s
  = starts_with_lower "http://" s || starts_with_lower "https://" s.
Proof.
  unfold test, scheme_regex.
  destruct s as [|c1 [|c2 [|c3 [|c4 s]]]];
    repeat rewrite matches_char;
    rewrite ?same_char_i_lower by (simpl; tauto);
    change (matches_at (Char ?c :: ?re) EmptyString) with false;
    cbn [starts_with_lower];
    rewrite ?andb_false_r; try reflexivity.
  rewrite matches_optional_tail.
  destruct (Ascii.eqb (to_lower c1) "h"); simpl; [|reflexivity].
  destruct (Ascii.eqb (to_lower c2) "t"); simpl; [|reflexivity].
  destruct (Ascii.eqb (to_lower c3) "t"); simpl; [|reflexivity].
  destruct (Ascii.eqb (to_lower c4) "p"); simpl; reflexivity.
Qed.

Lemma starts_with_lower_spec (lit s : string) :
  starts_with_lower lit s = true <->
  exists scheme rest, s = (scheme ++ rest)%string /\ lowercase scheme = lit.
Proof.
  revert s. induction lit as [|l lit IH]; intros s; simpl.
  - split; [intros _; exists ""%string, s; auto | auto].
  - destruct s as [|ch s].
    + split; [discriminate|].
      intros (p & r & E & L). destruct p; simpl in *; discriminate.
    + rewrite andb_true_iff, Ascii.eqb_eq, IH. split.
      * intros (Hc & p & r & -> & <-).
        exists (String ch p), r. simpl. now rewrite Hc.
      * intros (p & r & E & L). destruct p as [|c p]; simpl in *;
          [discriminate|].
        injection E as -> ->. injection L as Hc Hl.
        split; [assumption|]. now exists p, r.
Qed.

(** The test of line 78 decides the scheme rule of the specification. *)
Lemma test_scheme_iff (s : string) :
  test scheme_regex s = true <-> carries_scheme s.
Proof.
  rewrite test_scheme_regex, orb_true_iff, !starts_with_lower_spec.
  unfold carries_scheme. split.
  - intros [(p & r & E & L) | (p & r & E & L)]; exists p, r; auto.
  - intros (p & r & E & [L | L]); [left | right]; exists p, r; auto.
Qed.

(** C6: the url that [add] hands to the table is ["https://"] followed
    by the input when the input does not start with [http://] or
    [https://] in some mix of cases, and the input itself when it does. *)
Theorem persisted_url_scheme_rule (w : World) :
  valid_add w ->
  let input := url (react w) in
  exists persisted,
    persisted_url w = Some persisted /\
    (~ carries_scheme input -> persisted = ("https://" ++ input)%string) /\
    (carries_scheme input -> persisted = input).
Proof.
  intros Hv input. destruct (valid_add_user w Hv) as (u & Ht & Hu & Hs).
  exists (finalUrl input). unfold persisted_url.
  rewrite (issued_addBookmark w u Ht Hu Hs). split; [reflexivity|].
  unfold finalUrl. destruct (test scheme_regex input) eqn:E; simpl.
  - apply test_scheme_iff in E. split; [tauto | reflexivity].
  - split; [reflexivity|]. intros C. apply test_scheme_iff in C. congruence.
Qed.

(** ** Reconciliation *)






Lemma keyed_filter (f : Row.t -> bool) (table : list Row.t) :
  keyed table -> keyed (filter f table).
Proof.
  unfold keyed, ids. induction table as [|x l IH]; simpl; intros H; auto.
  inversion H as [|? ? Hx Hl]; subst.
  destruct (f x); simpl; auto. constructor; auto.
  intros Hin. apply Hx. apply in_map_iff in Hin as (y & E & Hy).
  apply in_map_iff. exists y. split; auto.
  apply filter_In in Hy. tauto.
Qed.







(** ** The life of the subscription *)

(** No event makes the component remove a channel. *)
Lemma step_never_tears_down (w : World) (e : Event) :
  exists cs, calls (step w e) = calls w ++ cs /\ no_teardown cs = true.
Proof.
  assert (Z : exists cs, calls w = calls w ++ cs /\ no_teardown cs = true)
    by (exists []; now rewrite app_nil_r).
  destruct e as [ | | session | ch | n r | v | v | | id | | ]; simpl.
  - world w; emits.
  - world w; emits.
  - destruct (listening w); [|exact Z].
    destruct session; world w; destruct channels0; emits.
  - destruct (find _ _); [|exact Z]. world w; emits.
  - destruct (nth_error _ _) as [p|]; [|exact Z].
    destruct (resume p r) as [k|] eqn:E; [|exact Z].
    destruct p, r; try discriminate; injection E as <-;
      try destruct session; try destruct r as [[d|] [m|]];
      try destruct d; world w; destruct channels0; emits.
  - world w; emits.
  - world w; emits.
  - unfold exec, addBookmark.
    world w. simpl. destruct (_ || _); [exact Z|].
    destruct user0; [|exact Z]. emits.
  - world w; emits.
  - world w; emits.
  - world w; emits.
Qed.

Lemma no_teardown_app (cs ds : list Call) :
  no_teardown cs = true -> no_teardown ds = true ->
  no_teardown (cs ++ ds) = true.
Proof. unfold no_teardown. rewrite forallb_app. now intros -> ->. Qed.

Lemma run_never_tears_down (w : World) (es : list Event) :
  no_teardown (calls w) = true -> no_teardown (calls (run w es)) = true.
Proof.
  revert w. induction es as [|e es IH]; intros w H; simpl; auto.
  apply IH. destruct (step_never_tears_down w e) as (cs & -> & Hcs).
  now apply no_teardown_app.
Qed.

(** A report of no identity clears the Collection and touches no
    channel. *)
Lemma identity_loss_keeps_channels (w : World) :
  listening w = true ->
  let w' := step w (AuthStateChange None) in
  user (react w') = None /\ bookmarks (react w') = [] /\
  channels w' = channels w /\
  calls w' = calls w ++ [SetUser None; SetBookmarks []; SetLoading false].
Proof.
  intros L w'. subst w'. simpl. rewrite L. world w.
  unfold exec. simpl. repeat split. now log.
Qed.

(** C2, on the code: after Alice's login her subscription is open.  When
    the session then passes to Bob, nothing is torn down and nothing is
    established for him: the handler is left by the exception of the
    client, the one channel held is still Alice's, and a change of the
    table makes the component query Alice's rows with Bob logged in. *)
Theorem identity_change_keeps_previous_subscription :
  let w1 := run initial_world login in
  let w2 := run initial_world identity_change in
  channels w1 = [mkChannel 0 "A"] /\
  live (calls w1) = [0%nat] /\
  fst (runState (onAuthStateChange (Some bob)) w1) = inl refusal /\
  user (react w2) = Some bob /\
  channels w2 = [mkChannel 0 "A"] /\
  live (calls w2) = [0%nat] /\
  no_teardown (calls w2) = true /\
  calls (step w2 (PostgresChanges 0)) = calls w2 ++ [DbSelect "A"].
Proof. intros w1 w2. repeat apply conj; vm_compute; reflexivity. Qed.

(** C3, on the code: when Alice logs out the Collection is cleared, but
    her subscription stays open; a change of the table afterwards makes
    the component query her rows again and show them with nobody logged
    in. *)
Theorem logout_leaves_subscription_open :
  let w := run initial_world login_logout in
  let w' := run w late_notification in
  user (react w) = None /\
  bookmarks (react w) = [] /\
  live (calls w) = [0%nat] /\
  channels w = [mkChannel 0 "A"] /\
  no_teardown (calls w) = true /\
  user (react w') = None /\
  bookmarks (react w') = [row3; row1; row2].
Proof. intros w w'. repeat apply conj; vm_compute; reflexivity. Qed.

(** * The theorems at the example form *)

Lemma typing_world_valid : valid_add typing_world.
Proof. repeat split; simpl; discriminate. Defined.


Lemma add_noop_witness :
  user (react anonymous_world) = None /\
  step anonymous_world ClickAdd = anonymous_world /\
  issued addBookmark anonymous_world = [].
Proof.
  split; [reflexivity|].
  apply (add_noop_without_inputs_or_identity anonymous_world).
  right; right; reflexivity.
Defined.

Lemma failed_load_witness :
  let w := step typing_world (PostgresChanges 0) in
  let w' := step w (Resolve 0 (SelectResult {| data := None;
                                               error := Some "offline" |})) in
  nth_error (inflight w) 0 = Some (AwaitSelect "A") /\
  react w' = react w /\
  channels w' = channels w /\
  listening w' = listening w /\
  inflight w' = remove_nth 0 (inflight w) /\
  calls w' = calls w ++ [ConsoleError "Error fetching:" "offline"].
Proof.
  intros w w'. split; [reflexivity|].
  apply (failed_load_keeps_collection w 0 "A" None "offline").
  reflexivity.
Defined.

Lemma rejected_add_witness :
  valid_add typing_world /\
  bookmarks (react (run typing_world
     [ClickAdd;
      Resolve 0 (InsertResult {| data := None; error := Some "denied" |})]))
  = [row1; row2].
Proof.
  split; [exact typing_world_valid|].
  destruct (rejected_add_leaves_collection typing_world "denied"
              typing_world_valid) as [R _].
  exact (f_equal bookmarks R).
Defined.

Lemma rejected_remove_witness :
  let w' := step typing_world (ClickDelete 1) in
  nth_error (inflight w') 0 = Some (AwaitDelete [row1; row2]) /\
  bookmarks (react w') = [row2] /\
  bookmarks (react (step w' (Resolve 0 (DeleteResult
                      {| data := None; error := Some "denied" |}))))
  = [row1; row2].
Proof.
  intros w'. split; [reflexivity|].
  destruct (rejected_remove_restores_snapshot typing_world w' 1 0 None
              "denied" eq_refl) as (_ & E1 & E2 & _).
  split; [exact E1 | exact E2].
Defined.

Lemma round_trip_witness :
  valid_add typing_world /\
  ~ In (Row.id row3) (ids (bookmarks (react typing_world))) /\
  bookmarks (react (run typing_world
     [ClickAdd;
      Resolve 0 (InsertResult {| data := Some (row3, []); error := None |});
      ClickDelete 3]))
  = [row1; row2].
Proof.
  assert (F : ~ In (Row.id row3) (ids (bookmarks (react typing_world))))
    by (simpl; intuition discriminate).
  split; [exact typing_world_valid|]. split; [exact F|].
  destruct (add_then_remove_round_trip typing_world row3 []
              typing_world_valid F) as (_ & E & _).
  exact E.
Defined.

Lemma order_of_calls_witness :
  valid_add typing_world /\
  issued (deleteBookmark 1) typing_world = [SetBookmarks [row2]; DbDelete 1] /\
  issued addBookmark typing_world = [DbInsert "Z" "https://z.com" "A"] /\
  bookmarks (react (run typing_world
     [ClickAdd;
      Resolve 0 (InsertResult {| data := Some (row3, []); error := None |})]))
  = [row3; row1; row2].
Proof.
  split; [exact typing_world_valid|].
  destruct (remove_mutates_first_add_requests_first typing_world) as [D A].
  destruct (D 1%Z) as (_ & E & _).
  destruct (A typing_world_valid) as (u & U & I & _ & S).
  injection U as <-.
  split; [exact E|]. split; [exact I|]. exact (S row3 []).
Defined.

Lemma scheme_rule_witness :
  valid_add typing_world /\
  exists persisted,
    persisted_url typing_world = Some persisted /\
    (~ carries_scheme "z.com" -> persisted = "https://z.com") /\
    (carries_scheme "z.com" -> persisted = "z.com").
Proof.
  split; [exact typing_world_valid|].
  exact (persisted_url_scheme_rule typing_world typing_world_valid).
Defined.


(** * Further properties of the component *)

(** ** The url that is stored *)

Lemma test_https_prefix (u : string) :
  test scheme_regex ("https://" ++ u)%string = true.
Proof. reflexivity. Qed.

(** Whatever is typed, the url handed on passes the test of line 78, so
    it starts with a scheme; handing it through the rule a second time
    changes nothing. *)
Theorem finalUrl_carries_scheme_and_is_stable (input : string) :
  carries_scheme (finalUrl input) /\
  finalUrl (finalUrl input) = finalUrl input.
Proof.
  assert (T : test scheme_regex (finalUrl input) = true).
  { unfold finalUrl. destruct (test scheme_regex input) eqn:E; cbn [negb].
    - exact E.
    - apply test_https_prefix. }
  split.
  - now apply test_scheme_iff.
  - unfold finalUrl at 1. now rewrite T.
Qed.

(** The rule never drops what was typed: the input is the end of the
    stored url, after nothing or after ["https://"]. *)
Lemma finalUrl_keeps_input (input : string) :
  finalUrl input = input \/ finalUrl input = ("https://" ++ input)%string.
Proof. unfold finalUrl. destruct (test scheme_regex input); auto. Qed.

(** ** The screens *)

(** When the Add button can be clicked, the guard of [addBookmark] lets
    the click through: it issues exactly one insert, for the logged-in
    user, and leaves the state as it is. *)
Theorem add_offered_issues_one_insert (w : World) :
  offers (render (react w)) ClickAdd ->
  valid_add w /\
  exists u, user (react w) = Some u /\
    issued addBookmark w =
      [DbInsert (title (react w)) (finalUrl (url (react w))) (uid u)] /\
    react (step w ClickAdd) = react w.
Proof.
  intros H. unfold render in H.
  destruct (loading (react w)); [contradiction|].
  destruct (user (react w)) as [u|] eqn:U; [|discriminate].
  simpl in H.
  destruct H as [[v H] | [[v H] | [[D _] | [H | H]]]]; try discriminate.
  - apply orb_false_iff in D as [Dt Du].
    apply String.eqb_neq in Dt, Du.
    split; [repeat split; auto; congruence|].
    exists u. split; [reflexivity|].
    split; [now apply issued_addBookmark|].
    change (step w ClickAdd) with (exec addBookmark w).
    now rewrite (addBookmark_valid w u Dt Du U).
  - destruct (length _ =? 0)%nat; [contradiction|].
    destruct H as (item & Hin & E). apply in_map_iff in Hin as (b & <- & _).
    destruct b; discriminate.
Qed.

Lemma without_length (id : Z) (bs : list Row.t) :
  length (without id bs) <= length bs.
Proof.
  unfold without. induction bs as [|b bs IH]; simpl; auto.
  destruct (negb _); simpl; lia.
Qed.

Lemma without_shrinks (id : Z) (bs : list Row.t) :
  In id (ids bs) -> length (without id bs) < length bs.
Proof.
  unfold ids. induction bs as [|b bs IH]; simpl; [tauto|].
  intros [E | H].
  - rewrite E, Z.eqb_refl. simpl.
    pose proof (without_length id bs). unfold without in *. lia.
  - specialize (IH H). unfold without in *.
    destruct (negb _); simpl; lia.
Qed.

Lemma without_absent (id : Z) (bs : list Row.t) : ~ In id (ids (without id bs)).
Proof.
  unfold ids, without. intros H.
  apply in_map_iff in H as (b & E & Hb). apply filter_In in Hb as [_ Hb].
  rewrite E, Z.eqb_refl in Hb. discriminate.
Qed.

(** A Delete button is only there for an id of the Collection, so the
    click makes the Collection strictly shorter, and no entry with that
    id is left in it. *)
Theorem delete_offered_shrinks_collection (w : World) (id : Z) :
  offers (render (react w)) (ClickDelete id) ->
  let after := bookmarks (react (step w (ClickDelete id))) in
  In id (ids (bookmarks (react w))) /\
  length after < length (bookmarks (react w)) /\
  ~ In id (ids after).
Proof.
  intros H after.
  assert (A : after = without id (bookmarks (react w))).
  { subst after. change (step w (ClickDelete id))
      with (exec (deleteBookmark id) w).
    now rewrite deleteBookmark_exec. }
  assert (I : In id (ids (bookmarks (react w)))).
  { unfold render in H.
    destruct (loading (react w)); [contradiction|].
    destruct (user (react w)) as [u|]; [|discriminate].
    simpl in H.
    destruct H as [[v H] | [[v H] | [[_ H] | [H | H]]]]; try discriminate.
    destruct (length _ =? 0)%nat; [contradiction|].
    destruct H as (item & Hin & E).
    apply in_map_iff in Hin as (b & <- & Hb).
    unfold ids. apply in_map_iff. exists b. split; [|exact Hb].
    destruct b. simpl in E. now injection E as ->. }
  rewrite A. split; [exact I|].
  split; [now apply without_shrinks | apply without_absent].
Qed.

(** The list shows one item per entry, in the order of the Collection,
    and a keyed Collection gives the items distinct keys; the placeholder
    is shown exactly when the Collection is empty. *)
Theorem listing_follows_collection (s : State) (u : User) :
  loading s = false -> user s = Some u ->
  exists addDisabled listing,
    render s = MainScreen (email u) (title s) (url s) addDisabled ClickAdd
                          listing ClickLogout /\
    (bookmarks s = [] -> listing = NoBookmarksYet) /\
    (bookmarks s <> [] ->
     exists items, listing = Listed items /\
       map key items = ids (bookmarks s) /\
       map onDelete items = map ClickDelete (ids (bookmarks s)) /\
       (keyed (bookmarks s) -> NoDup (map key items))).
Proof.
  intros L U. unfold render. rewrite L, U.
  eexists _, _. split; [reflexivity|]. split.
  - intros ->. reflexivity.
  - intros N. destruct (bookmarks s) as [|b bs] eqn:B; [congruence|].
    cbn [length Nat.eqb]. eexists. split; [reflexivity|].
    assert (K : forall l : list Row.t, map key (map item_of l) = ids l)
      by (intros l; unfold ids; rewrite map_map; apply map_ext;
          intros []; reflexivity).
    split; [apply K|]. split.
    + unfold ids. rewrite !map_map. apply map_ext. intros []; reflexivity.
    + intros Hk. now rewrite K.
Qed.

(** ** The session at start-up (lines 14-26) *)

(** When the lookup finds no session, only the loading flag is lowered:
    no user is set, nothing is queried and no channel is opened.  When it
    finds one and no channel is held, the user is set, that user's rows
    are queried, one channel is opened for that user, and then the flag
    is lowered; the Collection itself waits for the answer to the query.
    When it finds one and a channel is held already (the auth listener
    has been first), the user is set and the rows are queried, but the
    client refuses the subscription: the function is left by the
    exception, no channel is opened and the flag is not touched. *)
Theorem session_lookup_outcome (w : World) (n : nat) :
  nth_error (inflight w) n = Some AwaitSession ->
  (let w' := step w (Resolve n (SessionData None)) in
   react w' = mkComponent (user (react w)) (bookmarks (react w))
                          (title (react w)) (url (react w)) false /\
   channels w' = channels w /\
   inflight w' = remove_nth n (inflight w) /\
   calls w' = calls w ++ [SetLoading false]) /\
  (forall currentUser,
   channels w = [] ->
   let w' := step w (Resolve n (SessionData (Some currentUser))) in
   react w' = mkComponent (Some currentUser) (bookmarks (react w))
                          (title (react w)) (url (react w)) false /\
   channels w' = [mkChannel (next_channel w) (uid currentUser)] /\
   inflight w' = remove_nth n (inflight w) ++
                 [AwaitSelect (uid currentUser)] /\
   calls w' = calls w ++
     [SetUser (Some currentUser);
      DbSelect (uid currentUser);
      ChannelSubscribe (next_channel w) "realtime-bookmarks";
      SetLoading false]) /\
  (forall currentUser,
   channels w <> [] ->
   let w' := step w (Resolve n (SessionData (Some currentUser))) in
   fst (runState (getSession_resume (Some currentUser)) w) = inl refusal /\
   react w' = mkComponent (Some currentUser) (bookmarks (react w))
                          (title (react w)) (url (react w))
                          (loading (react w)) /\
   channels w' = channels w /\
   inflight w' = remove_nth n (inflight w) ++
                 [AwaitSelect (uid currentUser)] /\
   calls w' = calls w ++
     [SetUser (Some currentUser); DbSelect (uid currentUser)]).
Proof.
  intros Hp. split; [|split].
  - intros w'; subst w'.
    erewrite step_resolve by (eassumption || reflexivity).
    world w. unfold exec. simpl. repeat apply conj; now log.
  - intros currentUser C w'; subst w'.
    erewrite step_resolve by (eassumption || reflexivity).
    world w. simpl in C. subst. unfold exec. simpl.
    repeat apply conj; now log.
  - intros currentUser C w'; subst w'.
    erewrite step_resolve by (eassumption || reflexivity).
    world w. simpl in C. destruct channels0 as [|c cs]; [congruence|].
    unfold exec. simpl. repeat apply conj; now log.
Qed.

(** ** The guard of [addBookmark] (line 75) *)

Lemma addBookmark_blocked (w : World) :
  title (react w) = "" \/ url (react w) = "" \/ user (react w) = None ->
  step w ClickAdd = w.
Proof.
  intros H. world w. simpl in H. unfold step, exec, addBookmark. simpl.
  destruct H as [-> | [-> | ->]]; simpl; auto.
  - now rewrite orb_true_r.
  - now destruct (_ || _).
Qed.

(** ** Confirmed inserts (lines 96-102) *)

(** When the insert is confirmed, the Collection becomes the first row
    of the answer in front of the Collection that [add] saw when it was
    called, whatever the Collection has become in the meantime; both
    form fields are emptied, also when the answer carries no data, and
    then a further click on Add does nothing. *)
Theorem confirmed_add_uses_captured_collection
    (w : World) (n : nat) (captured : list Row.t)
    (d : option (Row.t * list Row.t)) :
  nth_error (inflight w) n = Some (AwaitInsert captured) ->
  let w' := step w (Resolve n (InsertResult (ok d))) in
  bookmarks (react w') =
    match d with
    | Some (data0, _) => data0 :: captured
    | None => bookmarks (react w)
    end /\
  title (react w') = "" /\ url (react w') = "" /\
  user (react w') = user (react w) /\
  inflight w' = remove_nth n (inflight w) /\
  step w' ClickAdd = w'.
Proof.
  intros Hp w'.
  assert (E : bookmarks (react w') =
              match d with
              | Some (data0, _) => data0 :: captured
              | None => bookmarks (react w)
              end /\
              title (react w') = "" /\ url (react w') = "" /\
              user (react w') = user (react w) /\
              inflight w' = remove_nth n (inflight w)).
  { subst w'. erewrite step_resolve by (eassumption || reflexivity).
    world w. destruct d as [[data0 rest]|]; unfold exec; simpl; auto. }
  destruct E as (E1 & E2 & E3 & E4 & E5). repeat split; auto.
  apply addBookmark_blocked. auto.
Qed.

Lemma nth_error_middle {A} (l k : list A) (x : A) :
  nth_error (l ++ x :: k) (length l) = Some x.
Proof. induction l; simpl; auto. Qed.

Lemma remove_nth_middle {A} (l k : list A) (x : A) :
  remove_nth (length l) (l ++ x :: k) = l ++ k.
Proof. induction l; simpl; congruence. Qed.

Lemma resolve_insert_ok
    (w : World) (n : nat) (captured : list Row.t)
    (row : Row.t) (rest : list Row.t) :
  nth_error (inflight w) n = Some (AwaitInsert captured) ->
  step w (Resolve n (InsertResult (ok (Some (row, rest))))) =
    mkWorld (mkComponent (user (react w)) (row :: captured) "" ""
                         (loading (react w)))
            (remove_nth n (inflight w)) (channels w) (next_channel w)
            (listening w)
            (calls w ++ [SetBookmarks (row :: captured);
                         SetTitle ""; SetUrl ""]).
Proof.
  intros Hp. erewrite step_resolve by (eassumption || reflexivity).
  world w. unfold exec. simpl. now log.
Qed.

(** Two clicks on Add before the first answer issue the same insert
    twice, and both continuations hold the Collection from before; when
    both inserts are confirmed, the row of the second answer is in front
    of that Collection and the row of the first is not shown. *)
Theorem overlapping_adds_show_last_row_only
    (w : World) (row1 row2 : Row.t) (rest1 rest2 : list Row.t) :
  valid_add w ->
  let n := length (inflight w) in
  let w' := run w [ClickAdd; ClickAdd;
                   Resolve n (InsertResult (ok (Some (row1, rest1))));
                   Resolve n (InsertResult (ok (Some (row2, rest2))))] in
  bookmarks (react w') = row2 :: bookmarks (react w) /\
  inflight w' = inflight w /\
  exists insert,
    calls w' = calls w ++
      [insert; insert;
       SetBookmarks (row1 :: bookmarks (react w)); SetTitle ""; SetUrl "";
       SetBookmarks (row2 :: bookmarks (react w)); SetTitle ""; SetUrl ""] /\
    is_request insert = true.
Proof.
  intros Hv n w'. subst n w'.
  destruct (valid_add_user w Hv) as (u & Ht & Hu & Hs).
  unfold run. cbn [fold_left].
  change (step w ClickAdd) with (exec addBookmark w).
  rewrite (addBookmark_valid w u Ht Hu Hs).
  match goal with |- context [step ?w1 ClickAdd] =>
    change (step w1 ClickAdd) with (exec addBookmark w1);
    rewrite (addBookmark_valid w1 u Ht Hu Hs)
  end.
  cbn [react inflight channels next_channel listening calls].
  rewrite <- !app_assoc. cbn [app].
  rewrite (resolve_insert_ok _ _ (bookmarks (react w)) row1 rest1)
    by apply nth_error_middle.
  cbn [react inflight channels next_channel listening calls user loading].
  rewrite remove_nth_middle.
  rewrite (resolve_insert_ok _ _ (bookmarks (react w)) row2 rest2)
    by apply nth_error_middle.
  cbn [react inflight channels next_channel listening calls user loading
       bookmarks].
  rewrite remove_nth_middle, app_nil_r.
  repeat split. eexists. split.
  - repeat rewrite <- app_assoc. reflexivity.
  - reflexivity.
Qed.

(** ** Answered queries (line 54) *)

(** A query answered without error replaces the Collection by the data
    of the answer, or by the empty list when the answer has no data; no
    entry of the old Collection is kept, and no other cell changes. *)
Theorem answered_load_replaces_collection
    (w : World) (n : nat) (userId : string) (d : option (list Row.t)) :
  nth_error (inflight w) n = Some (AwaitSelect userId) ->
  let w' := step w (Resolve n (SelectResult (ok d))) in
  let rows := match d with Some rows => rows | None => [] end in
  react w' = mkComponent (user (react w)) rows (title (react w))
                         (url (react w)) (loading (react w)) /\
  channels w' = channels w /\
  inflight w' = remove_nth n (inflight w) /\
  calls w' = calls w ++ [SetBookmarks rows].
Proof.
  intros Hp w' rows. subst w' rows.
  erewrite step_resolve by (eassumption || reflexivity).
  world w. unfold exec. simpl. repeat split.
Qed.

Lemma resolve_select_ok
    (w : World) (n : nat) (userId : string) (rows : list Row.t) :
  nth_error (inflight w) n = Some (AwaitSelect userId) ->
  step w (Resolve n (SelectResult (ok (Some rows)))) =
    mkWorld (mkComponent (user (react w)) rows (title (react w))
                         (url (react w)) (loading (react w)))
            (remove_nth n (inflight w)) (channels w) (next_channel w)
            (listening w)
            (calls w ++ [SetBookmarks rows]).
Proof.
  intros Hp. erewrite step_resolve by (eassumption || reflexivity).
  now world w.
Qed.

Lemma nth_error_after {A} (l : list A) (x y : A) :
  nth_error (l ++ [x; y]) (S (length l)) = Some y.
Proof. induction l; simpl; auto. Qed.

Lemma remove_nth_after {A} (l : list A) (x y : A) :
  remove_nth (S (length l)) (l ++ [x; y]) = l ++ [x].
Proof.
  induction l as [|a l IH]; [reflexivity|].
  change (a :: remove_nth (S (length l)) (l ++ [x; y]) = a :: (l ++ [x])).
  now rewrite IH.
Qed.

(** When two queries are pending, the Collection ends as the data of
    the one answered last, in either order of the answers. *)
Theorem last_answer_wins
    (w : World) (u1 u2 : string) (rows1 rows2 : list Row.t) :
  let n := length (inflight w) in
  let w2 := exec (fetchBookmarks u2) (exec (fetchBookmarks u1) w) in
  bookmarks (react (run w2 [Resolve n (SelectResult (ok (Some rows1)));
                            Resolve n (SelectResult (ok (Some rows2)))]))
  = rows2 /\
  bookmarks (react (run w2 [Resolve (S n) (SelectResult (ok (Some rows2)));
                            Resolve n (SelectResult (ok (Some rows1)))]))
  = rows1.
Proof.
  intros n w2. subst n w2. world w. unfold exec, run. cbn [fold_left].
  cbn -[nth_error remove_nth step]. rewrite <- !app_assoc. cbn [app].
  split.
  - rewrite (resolve_select_ok _ _ u1 rows1) by apply nth_error_middle.
    cbn [inflight]. rewrite remove_nth_middle.
    rewrite (resolve_select_ok _ _ u2 rows2) by apply nth_error_middle.
    reflexivity.
  - rewrite (resolve_select_ok _ _ u2 rows2) by apply nth_error_after.
    cbn [inflight]. rewrite remove_nth_after.
    rewrite (resolve_select_ok _ _ u1 rows1) by apply nth_error_snoc.
    reflexivity.
Qed.

(** ** Logging out and in (lines 121-134) *)

(** A click on Logout only asks for the sign-out; the user and the
    Collection are cleared when that is answered, not before.  What is
    typed in the form stays, no channel is touched, and once the flag is
    down the login screen is what is rendered. *)
Theorem logout_clears_on_answer (w : World) :
  let w1 := step w ClickLogout in
  let w2 := step w1 (Resolve (length (inflight w)) SignOutDone) in
  react w1 = react w /\
  calls w1 = calls w ++ [AuthSignOut] /\
  react w2 = mkComponent None [] (title (react w)) (url (react w))
                         (loading (react w)) /\
  channels w2 = channels w /\
  inflight w2 = inflight w /\
  calls w2 = calls w ++ [AuthSignOut; SetUser None; SetBookmarks []] /\
  (loading (react w) = false -> render (react w2) = LoginScreen ClickLogin).
Proof.
  intros w1 w2. subst w1 w2.
  change (step w ClickLogout) with (exec handleLogout w).
  assert (E : exec handleLogout w =
              mkWorld (react w) (inflight w ++ [AwaitSignOut]) (channels w)
                      (next_channel w) (listening w)
                      (calls w ++ [AuthSignOut])) by now world w.
  rewrite E.
  erewrite step_resolve; [ | apply nth_error_snoc | reflexivity ].
  unfold exec. cbn -[remove_nth]. rewrite remove_nth_snoc.
  repeat split; try now log.
  intros L. unfold render. cbn. now rewrite L.
Qed.

(** A click on Login asks for the OAuth flow with Google and nothing
    else: no cell changes, then or when the call returns. *)
Theorem login_only_starts_oauth (w : World) :
  let w1 := step w ClickLogin in
  let w2 := step w1 (Resolve (length (inflight w)) SignInDone) in
  react w2 = react w /\
  channels w2 = channels w /\
  inflight w2 = inflight w /\
  calls w2 = calls w ++ [AuthSignInWithOAuth "google"].
Proof.
  intros w1 w2. subst w1 w2.
  change (step w ClickLogin) with (exec handleLogin w).
  assert (E : exec handleLogin w =
              mkWorld (react w) (inflight w ++ [AwaitSignIn]) (channels w)
                      (next_channel w) (listening w)
                      (calls w ++ [AuthSignInWithOAuth "google"]))
    by now world w.
  rewrite E.
  erewrite step_resolve; [ | apply nth_error_snoc | reflexivity ].
  unfold exec. cbn -[remove_nth]. rewrite remove_nth_snoc.
  repeat split.
Qed.

(** ** Unmounting (lines 41-43) *)

(** The function returned by the effect unsubscribes the auth listener
    and nothing else: afterwards a report of the session does nothing,
    while every channel that was open still is and a change of the table
    on it still makes the component query. *)
Theorem unmount_stops_auth_events_only (w : World) :
  let w' := step w Unmount in
  react w' = react w /\
  channels w' = channels w /\
  calls w' = calls w ++ [AuthUnsubscribe] /\
  (forall session, step w' (AuthStateChange session) = w') /\
  (forall c, In c (channels w) ->
     exists userId,
       calls (step w' (PostgresChanges (ch_id c)))
       = calls w' ++ [DbSelect userId]).
Proof.
  intros w'. subst w'.
  change (step w Unmount) with (exec useEffect_cleanup w).
  assert (E : exec useEffect_cleanup w =
              mkWorld (react w) (inflight w) (channels w) (next_channel w)
                      false (calls w ++ [AuthUnsubscribe])) by now world w.
  rewrite E. repeat split.
  intros c Hc. cbn [step channels].
  destruct (find (fun c0 => (ch_id c0 =? ch_id c)%nat) (channels w))
    as [c'|] eqn:F.
  - exists (ch_user c'). reflexivity.
  - exfalso. apply (find_none _ _ F) in Hc. now rewrite Nat.eqb_refl in Hc.
Qed.

(** ** Which events can change the Collection *)

(** Only three kinds of event reach a [setBookmarks]: a report of the
    session, the answer to a request, and a click on Delete.  Mounting,
    unmounting, typing, a click on Add, Login or Logout, and a change of
    the table leave the Collection and the user as they are. *)
Theorem collection_frame (w : World) (e : Event) :
  may_set_bookmarks e = false ->
  bookmarks (react (step w e)) = bookmarks (react w) /\
  user (react (step w e)) = user (react w).
Proof.
  intros H. destruct e; try discriminate; cbn [step].
  - now world w.
  - now world w.
  - destruct (find _ _); now world w.
  - now world w.
  - now world w.
  - world w. unfold exec, addBookmark. simpl.
    destruct (_ || _); [auto|]. now destruct user0.
  - now world w.
  - now world w.
Qed.

(** ** Order and keys under the local mutations *)

Lemma newer_first_trans : Relations_1.Transitive newer_first.
Proof. unfold Relations_1.Transitive, newer_first. intros; lia. Qed.

Lemma filter_strongly_sorted (f : Row.t -> bool) (bs : list Row.t) :
  StronglySorted newer_first bs -> StronglySorted newer_first (filter f bs).
Proof.
  induction 1 as [|b bs Hs IH Hall]; simpl; [constructor|].
  destruct (f b); [|exact IH].
  constructor; [exact IH|].
  apply Forall_forall. intros x Hx. apply filter_In in Hx as [Hx _].
  revert x Hx. now apply Forall_forall.
Qed.

Lemma without_sorted (id : Z) (bs : list Row.t) :
  Sorted newer_first bs -> Sorted newer_first (without id bs).
Proof.
  intros S. apply StronglySorted_Sorted, filter_strongly_sorted.
  apply Sorted_StronglySorted; [apply newer_first_trans | exact S].
Qed.

Lemma without_keyed_length (id : Z) (bs : list Row.t) :
  keyed bs -> In id (ids bs) -> length bs = S (length (without id bs)).
Proof.
  unfold keyed, ids. induction bs as [|b bs IH]; simpl; [tauto|].
  intros K H. inversion K as [|? ? Kb Kbs]; subst.
  destruct (Z.eqb_spec (Row.id b) id) as [E|E]; simpl.
  - f_equal. f_equal. symmetry. fold (without id bs).
    apply without_fresh. unfold ids. now rewrite <- E.
  - f_equal. apply IH; auto. destruct H; [contradiction | assumption].
Qed.

(** The optimistic removal keeps a Collection in order and keyed; of a
    keyed Collection that has the id it takes away exactly one entry,
    and every entry with another id stays. *)
Theorem remove_keeps_order_and_keys (w : World) (id : Z) :
  ordered_and_keyed (bookmarks (react w)) ->
  let after := bookmarks (react (step w (ClickDelete id))) in
  ordered_and_keyed after /\
  (In id (ids (bookmarks (react w))) ->
   length (bookmarks (react w)) = S (length after)) /\
  (forall b, In b (bookmarks (react w)) -> Row.id b <> id -> In b after).
Proof.
  intros [S K] after.
  assert (A : after = without id (bookmarks (react w))).
  { subst after. change (step w (ClickDelete id))
      with (exec (deleteBookmark id) w).
    now rewrite deleteBookmark_exec. }
  rewrite A. split; [split|split].
  - now apply without_sorted.
  - now apply keyed_filter.
  - now apply without_keyed_length.
  - intros b Hb Hid. apply filter_In. split; [exact Hb|].
    apply negb_true_iff. now apply Z.eqb_neq.
Qed.

(** A confirmed insert keeps the Collection that [add] saw in order and
    keyed when the row of the answer has a new id and is at least as new
    as the entries of that Collection, as a row just inserted is. *)
Theorem confirmed_add_keeps_order_and_keys
    (w : World) (n : nat) (captured : list Row.t)
    (row : Row.t) (rest : list Row.t) :
  nth_error (inflight w) n = Some (AwaitInsert captured) ->
  ordered_and_keyed captured ->
  ~ In (Row.id row) (ids captured) ->
  Forall (fun b => (Row.created_at b <= Row.created_at row)%Z) captured ->
  ordered_and_keyed
    (bookmarks (react (step w (Resolve n (InsertResult
                                            (ok (Some (row, rest)))))))).
Proof.
  intros Hp [S K] F N.
  rewrite (resolve_insert_ok w n captured row rest Hp). cbn [react bookmarks].
  split.
  - constructor; [exact S|].
    destruct captured as [|b bs]; constructor.
    inversion N; subst. assumption.
  - unfold keyed, ids. simpl. constructor; assumption.
Qed.

(** Without that, the order can be lost: an answer older than the head
    of the Collection is still put in front. *)
Example confirmed_add_can_break_order :
  let w := step typing_world ClickAdd in
  let old := Row.mk 9 "Z" "https://z.com" "A" 5 in
  bookmarks (react (step w (Resolve 0 (InsertResult (ok (Some (old, [])))))))
  = [old; row1; row2] /\
  ~ Sorted newer_first [old; row1; row2].
Proof.
  split; [reflexivity|].
  intros S. inversion S as [|? ? _ H]; subst.
  inversion H as [|? ? L]; subst. unfold newer_first in L. simpl in L. lia.
Qed.

(** ** What holds along every run *)

(** What one event adds: calls at the end of the log, all of them in
    order; channels at the end of those open, numbered on from
    [next_channel], each with its subscription in the log; and the
    loading flag as it was or lowered. *)
Lemma step_effect (w : World) (e : Event) :
  exists cs more,
    calls (step w e) = calls w ++ cs /\
    channels (step w e) = channels w ++ more /\
    next_channel (step w e) = length more + next_channel w /\
    map ch_id more = seq (next_channel w) (length more) /\
    (forall open, fold_left live_after cs open = open ++ map ch_id more) /\
    forallb call_in_order cs = true /\
    (loading (react (step w e)) = loading (react w) \/
     loading (react (step w e)) = false).
Proof.
  destruct e as [ | | session | ch | n r | v | v | | id | | ]; cbn [step].
  - world w; effect.
  - world w; effect.
  - destruct (listening w); [destruct session|]; world w;
      destruct channels0; effect.
  - destruct (find _ _); world w; effect.
  - destruct (nth_error _ _) as [p|]; [|world w; effect].
    destruct (resume p r) as [k|] eqn:E; [|world w; effect].
    destruct p, r; try discriminate; injection E as <-;
      try destruct session; try destruct r as [[d|] [m|]];
      try destruct d; world w; destruct channels0; effect.
  - world w; effect.
  - world w; effect.
  - world w. unfold exec, addBookmark. simpl.
    destruct (title0 =? "") eqn:Et; simpl; [effect|].
    destruct (url0 =? "") eqn:Eu; simpl; [effect|].
    destruct user0 as [u|]; [|effect].
    assert (T : test scheme_regex (finalUrl url0) = true).
    { unfold finalUrl. destruct (test scheme_regex url0) eqn:E; cbn [negb];
        [exact E | apply test_https_prefix]. }
    exists [DbInsert title0 (finalUrl url0) (uid u)], [].
    split; [reflexivity|]. split; [now rewrite app_nil_r|].
    split; [reflexivity|]. split; [reflexivity|].
    split; [intros open; simpl; now rewrite app_nil_r|].
    split; [|left; reflexivity].
    cbn [forallb call_in_order]. now rewrite Et, T.
  - world w; effect.
  - world w; effect.
  - world w; effect.
Qed.

Lemma run_effect (w : World) (es : list Event) :
  exists cs more,
    calls (run w es) = calls w ++ cs /\
    channels (run w es) = channels w ++ more /\
    forallb call_in_order cs = true /\
    (loading (react w) = false -> loading (react (run w es)) = false).
Proof.
  revert w. induction es as [|e es IH]; intros w.
  - exists [], []. simpl. now rewrite !app_nil_r.
  - destruct (step_effect w e) as (cs & more & C & H & _ & _ & _ & O & L).
    destruct (IH (step w e)) as (cs' & more' & C' & H' & O' & L').
    exists (cs ++ cs'), (more ++ more'). cbn [run fold_left].
    fold (run (step w e) es). rewrite C', H', C, H, !app_assoc.
    repeat split; auto.
    + rewrite forallb_app. now rewrite O, O'.
    + intros F. apply L'. destruct L as [L | L]; congruence.
Qed.

(** No sequence of events closes a channel: those open before are still
    open after it, in the same order, followed by the ones opened on the
    way. *)
Theorem channels_only_grow (w : World) (es : list Event) :
  exists more, channels (run w es) = channels w ++ more.
Proof.
  destruct (run_effect w es) as (_ & more & _ & H & _). now exists more.
Qed.

(** Once the loading flag is down (the first answer about the session
    lowers it) nothing raises it again, so the loading screen is not
    rendered a second time: not on logout, not on a new login, not while
    a request is pending. *)
Theorem loading_never_raised (w : World) (es : list Event) :
  loading (react w) = false ->
  loading (react (run w es)) = false /\
  render (react (run w es)) <> LoadingScreen.
Proof.
  intros L. destruct (run_effect w es) as (_ & _ & _ & _ & _ & H).
  specialize (H L). split; [exact H|].
  unfold render. rewrite H. now destruct (user _).
Qed.

(** Every insert the component issues, along any run from the start,
    has a title that is not empty and a url that starts with a scheme
    and that the scheme rule would leave as it is. *)
Theorem issued_inserts_are_well_formed
    (es : list Event) (t u o : string) :
  In (DbInsert t u o) (calls (run initial_world es)) ->
  t <> "" /\ carries_scheme u /\ finalUrl u = u.
Proof.
  destruct (run_effect initial_world es) as (cs & _ & C & _ & O & _).
  rewrite C. simpl. intros H.
  rewrite forallb_forall in O. specialize (O _ H). simpl in O.
  apply andb_true_iff in O as [Ot Ou].
  split; [|split].
  - apply negb_true_iff in Ot. now apply String.eqb_neq.
  - now apply test_scheme_iff.
  - change (test scheme_regex u = true) in Ou. unfold finalUrl.
    now rewrite Ou.
Qed.



(** What one event does to the channels: while one is held it is the
    only one and stays as it is; while none is held at most one is
    opened. *)
Lemma step_channels (w : World) (e : Event) :
  (channels w <> [] -> channels (step w e) = channels w) /\
  (channels w = [] -> length (channels (step w e)) <= 1).
Proof.
  assert (H : forall w', channels w' = channels w \/
                         (channels w = [] /\ length (channels w') <= 1) ->
              (channels w <> [] -> channels w' = channels w) /\
              (channels w = [] -> length (channels w') <= 1)).
  { intros w' [E | [E L]]; split; intros C; try congruence.
    rewrite E, C. simpl. lia. }
  apply H.
  destruct e as [ | | session | ch | n r | v | v | | id | | ]; cbn [step];
    try (left; now world w).
  - destruct (listening w); [|now left].
    destruct session; world w; destruct channels0; simpl;
      first [ left; reflexivity | right; split; [reflexivity | simpl; lia] ].
  - destruct (find _ _); left; now world w.
  - destruct (nth_error _ _) as [p|]; [|now left].
    destruct (resume p r) as [k|] eqn:E; [|now left].
    destruct p, r; try discriminate; injection E as <-;
      try destruct session; try destruct r as [[d|] [m|]];
      try destruct d; world w; destruct channels0; simpl;
      first [ left; reflexivity | right; split; [reflexivity | simpl; lia] ].
  - left. world w. unfold exec, addBookmark. simpl.
    destruct (_ || _); [reflexivity|]. now destruct user0.
Qed.

(** Once a channel is held no sequence of events replaces it: it stays
    the only one, with the [userId] it was created with, and a change of
    the table keeps making the component query that user's rows, whoever
    has logged in or out in between. *)
Theorem held_channel_is_never_replaced
    (w : World) (es : list Event) (c : Channel) (rest : list Channel) :
  channels w = c :: rest ->
  let w' := run w es in
  channels w' = c :: rest /\
  calls (step w' (PostgresChanges (ch_id c)))
  = calls w' ++ [DbSelect (ch_user c)].
Proof.
  intros C w'.
  assert (E : channels w' = c :: rest).
  { subst w'. revert w C. induction es as [|e es IH]; intros w C; [exact C|].
    cbn [run fold_left]. fold (run (step w e) es). apply IH.
    destruct (step_channels w e) as [H _]. rewrite H; [exact C | congruence]. }
  split; [exact E|].
  cbn [step]. rewrite E. cbn [find]. rewrite Nat.eqb_refl. now world w'.
Qed.


(** ** A report of a session (lines 29-33) *)

Lemma identity_report_exec (w : World) (u : User) :
  listening w = true ->
  channels w = [] ->
  step w (AuthStateChange (Some u)) =
    mkWorld (mkComponent (Some u) (bookmarks (react w)) (title (react w))
                         (url (react w)) false)
            (inflight w ++ [AwaitSelect (uid u)])
            [mkChannel (next_channel w) (uid u)]
            (S (next_channel w)) true
            (calls w ++
               [SetUser (Some u); DbSelect (uid u);
                ChannelSubscribe (next_channel w) "realtime-bookmarks";
                SetLoading false]).
Proof.
  intros L C. cbn [step]. rewrite L. world w. simpl in L, C. subst.
  unfold exec. simpl. repeat rewrite <- app_assoc. reflexivity.
Qed.

Lemma identity_report_refused (w : World) (u : User) :
  listening w = true ->
  channels w <> [] ->
  step w (AuthStateChange (Some u)) =
    mkWorld (mkComponent (Some u) (bookmarks (react w)) (title (react w))
                         (url (react w)) (loading (react w)))
            (inflight w ++ [AwaitSelect (uid u)])
            (channels w) (next_channel w) true
            (calls w ++ [SetUser (Some u); DbSelect (uid u)]) /\
  fst (runState (onAuthStateChange (Some u)) w) = inl refusal.
Proof.
  intros L C. cbn [step]. rewrite L. world w. simpl in L, C. subst.
  destruct channels0 as [|c cs]; [congruence|].
  unfold exec. simpl. split; [|reflexivity].
  repeat rewrite <- app_assoc. reflexivity.
Qed.

(** A report of a session while no channel is held sets the user,
    queries that user's rows, opens the channel and lowers the loading
    flag.  While a channel is held, for this user or another, the user
    is set and the rows are queried, but the client refuses the
    subscription: the callback is left by the exception, the channel
    held stays as it is, and the loading flag is not touched. *)
Theorem identity_report_outcome (w : World) (u : User) :
  listening w = true ->
  let w' := step w (AuthStateChange (Some u)) in
  user (react w') = Some u /\
  (channels w = [] ->
   channels w' = [mkChannel (next_channel w) (uid u)] /\
   loading (react w') = false /\
   calls w' = calls w ++
     [SetUser (Some u); DbSelect (uid u);
      ChannelSubscribe (next_channel w) "realtime-bookmarks";
      SetLoading false]) /\
  (channels w <> [] ->
   fst (runState (onAuthStateChange (Some u)) w) = inl refusal /\
   channels w' = channels w /\
   loading (react w') = loading (react w) /\
   calls w' = calls w ++ [SetUser (Some u); DbSelect (uid u)]).
Proof.
  intros L w'. subst w'. split; [|split].
  - destruct (channels w) as [|c cs] eqn:C.
    + now rewrite (identity_report_exec w u L C).
    + destruct (identity_report_refused w u L) as [E _]; [congruence|].
      now rewrite E.
  - intros C. now rewrite (identity_report_exec w u L C).
  - intros C. destruct (identity_report_refused w u L C) as [E T].
    rewrite E. repeat apply conj; auto.
Qed.

(** A report of a session for [u] sets the user and asks for [u]'s
    rows, but does not touch the Collection: what was shown before stays
    until the query is answered, and when the query fails it stays on
    under the new user. *)
Theorem identity_report_keeps_collection_until_answer
    (w : World) (u : User) (d : option (list Row.t)) (msg : string) :
  listening w = true ->
  let w1 := step w (AuthStateChange (Some u)) in
  let w2 := step w1 (Resolve (length (inflight w))
                       (SelectResult {| data := d; error := Some msg |})) in
  user (react w1) = Some u /\
  bookmarks (react w1) = bookmarks (react w) /\
  (exists more,
     calls w1 = calls w ++ [SetUser (Some u); DbSelect (uid u)] ++ more) /\
  nth_error (inflight w1) (length (inflight w)) = Some (AwaitSelect (uid u)) /\
  user (react w2) = Some u /\
  bookmarks (react w2) = bookmarks (react w).
Proof.
  intros L w1 w2. subst w2 w1.
  destruct (channels w) as [|c cs] eqn:C.
  - rewrite (identity_report_exec w u L C).
    erewrite step_resolve; [ | apply nth_error_snoc | reflexivity ].
    repeat apply conj; try reflexivity; [eexists; reflexivity|].
    apply nth_error_snoc.
  - destruct (identity_report_refused w u L) as [E _]; [congruence|].
    rewrite E.
    erewrite step_resolve; [ | apply nth_error_snoc | reflexivity ].
    repeat apply conj; try reflexivity; [exists []; reflexivity|].
    apply nth_error_snoc.
Qed.

(** ** The test of line 78 looks at the start only *)

(** The pattern has no anchor at the end: once a url passes the test,
    whatever follows the scheme does not matter, so the url is stored as
    typed with anything appended to it. *)
Theorem scheme_test_ignores_rest (input more : string) :
  test scheme_regex input = true ->
  test scheme_regex (input ++ more)%string = true /\
  finalUrl (input ++ more)%string = (input ++ more)%string.
Proof.
  intros T.
  assert (T' : test scheme_regex (input ++ more)%string = true).
  { apply test_scheme_iff in T as (p & r & -> & H).
    apply test_scheme_iff. exists p, (r ++ more)%string.
    split; [|exact H].
    clear H. induction p as [|c p IH]; simpl; [reflexivity|].
    now rewrite IH. }
  split; [exact T'|]. unfold finalUrl. now rewrite T'.
Qed.

(** * The further properties at the example form *)

Lemma typing_world_offers_add : offers (render (react typing_world)) ClickAdd.
Proof. simpl. right; right; left. split; reflexivity. Defined.

Lemma add_offered_witness :
  offers (render (react typing_world)) ClickAdd /\
  valid_add typing_world /\
  exists u, user (react typing_world) = Some u /\
    issued addBookmark typing_world =
      [DbInsert "Z" (finalUrl "z.com") (uid u)] /\
    react (step typing_world ClickAdd) = react typing_world.
Proof.
  split; [exact typing_world_offers_add|].
  exact (add_offered_issues_one_insert typing_world typing_world_offers_add).
Defined.

Lemma typing_world_offers_delete :
  offers (render (react typing_world)) (ClickDelete 1).
Proof.
  simpl. right; right; right; left.
  eexists. split; [left; reflexivity | reflexivity].
Defined.

Lemma delete_offered_witness :
  offers (render (react typing_world)) (ClickDelete 1) /\
  In 1%Z (ids (bookmarks (react typing_world))) /\
  length (bookmarks (react (step typing_world (ClickDelete 1))))
    < length (bookmarks (react typing_world)) /\
  ~ In 1%Z (ids (bookmarks (react (step typing_world (ClickDelete 1))))).
Proof.
  split; [exact typing_world_offers_delete|].
  exact (delete_offered_shrinks_collection typing_world 1
           typing_world_offers_delete).
Defined.

Lemma listing_witness :
  loading (react typing_world) = false /\
  user (react typing_world) = Some alice /\
  exists addDisabled listing,
    render (react typing_world)
    = MainScreen "a@example.com" "Z" "z.com" addDisabled ClickAdd
                 listing ClickLogout.
Proof.
  split; [reflexivity|]. split; [reflexivity|].
  destruct (listing_follows_collection (react typing_world) alice
              eq_refl eq_refl) as (d & l & R & _).
  exists d, l. exact R.
Defined.

Lemma session_lookup_witness :
  let w := step initial_world Mount in
  let held := run initial_world login in
  nth_error (inflight w) 0 = Some AwaitSession /\
  channels w = [] /\
  calls (step w (Resolve 0 (SessionData None)))
  = calls w ++ [SetLoading false] /\
  channels (step w (Resolve 0 (SessionData (Some alice))))
  = [mkChannel 0 "A"] /\
  nth_error (inflight held) 0 = Some AwaitSession /\
  channels held <> [] /\
  channels (step held (Resolve 0 (SessionData (Some alice))))
  = channels held.
Proof.
  intros w held. split; [reflexivity|]. split; [reflexivity|].
  destruct (session_lookup_outcome w 0 eq_refl) as (N & S & _).
  destruct N as (_ & _ & _ & N).
  destruct (S alice eq_refl) as (_ & C & _).
  split; [exact N|]. split; [exact C|].
  assert (H : channels held <> []) by (vm_compute; discriminate).
  split; [reflexivity|]. split; [exact H|].
  destruct (session_lookup_outcome held 0 eq_refl) as (_ & _ & R).
  destruct (R alice H) as (_ & _ & K & _).
  exact K.
Defined.

Lemma confirmed_add_witness :
  let w := step typing_world ClickAdd in
  let w' := step w (Resolve 0 (InsertResult (ok (Some (row3, []))))) in
  nth_error (inflight w) 0 = Some (AwaitInsert [row1; row2]) /\
  bookmarks (react w') = [row3; row1; row2] /\
  title (react w') = "" /\ url (react w') = "" /\
  step w' ClickAdd = w'.
Proof.
  intros w w'. split; [reflexivity|].
  destruct (confirmed_add_uses_captured_collection w 0 [row1; row2]
              (Some (row3, [])) eq_refl) as (B & T & U & _ & _ & N).
  repeat split; assumption.
Defined.

Lemma overlapping_adds_witness :
  valid_add typing_world /\
  bookmarks (react (run typing_world
     [ClickAdd; ClickAdd;
      Resolve 0 (InsertResult (ok (Some (row3, []))));
      Resolve 0 (InsertResult (ok (Some (row4, []))))]))
  = [row4; row1; row2].
Proof.
  split; [exact typing_world_valid|].
  destruct (overlapping_adds_show_last_row_only typing_world row3 row4 [] []
              typing_world_valid) as (B & _).
  exact B.
Defined.

Lemma answered_load_witness :
  let w := step typing_world (PostgresChanges 0) in
  nth_error (inflight w) 0 = Some (AwaitSelect "A") /\
  bookmarks (react (step w (Resolve 0 (SelectResult (ok None))))) = [].
Proof.
  intros w. split; [reflexivity|].
  destruct (answered_load_replaces_collection w 0 "A" None eq_refl)
    as (R & _).
  exact (f_equal bookmarks R).
Defined.

Lemma collection_frame_witness :
  may_set_bookmarks ClickLogout = false /\
  bookmarks (react (step typing_world ClickLogout)) = [row1; row2] /\
  user (react (step typing_world ClickLogout)) = Some alice.
Proof.
  split; [reflexivity|].
  exact (collection_frame typing_world ClickLogout eq_refl).
Defined.

Lemma typing_world_ordered : ordered_and_keyed (bookmarks (react typing_world)).
Proof.
  split.
  - repeat constructor; unfold newer_first; simpl; lia.
  - unfold keyed. simpl.
    repeat (apply NoDup_cons; [simpl; intuition discriminate|]).
    apply NoDup_nil.
Defined.

Lemma remove_keeps_witness :
  ordered_and_keyed (bookmarks (react typing_world)) /\
  ordered_and_keyed (bookmarks (react (step typing_world (ClickDelete 1)))).
Proof.
  split; [exact typing_world_ordered|].
  destruct (remove_keeps_order_and_keys typing_world 1 typing_world_ordered)
    as (O & _).
  exact O.
Defined.

Lemma confirmed_add_keeps_witness :
  let w := step typing_world ClickAdd in
  nth_error (inflight w) 0 = Some (AwaitInsert [row1; row2]) /\
  ordered_and_keyed
    (bookmarks (react (step w (Resolve 0 (InsertResult
                                            (ok (Some (row3, [])))))))).
Proof.
  intros w. split; [reflexivity|].
  apply (confirmed_add_keeps_order_and_keys w 0 [row1; row2] row3 [] eq_refl
           typing_world_ordered).
  - simpl. intuition discriminate.
  - repeat constructor; simpl; lia.
Defined.

Lemma loading_witness :
  loading (react typing_world) = false /\
  loading (react (run typing_world
                    [ClickLogout; Resolve 0 SignOutDone;
                     AuthStateChange (Some bob)])) = false.
Proof.
  split; [reflexivity|].
  destruct (loading_never_raised typing_world
              [ClickLogout; Resolve 0 SignOutDone; AuthStateChange (Some bob)]
              eq_refl) as (L & _).
  exact L.
Defined.

Lemma issued_inserts_witness :
  let es := [Mount; AuthStateChange (Some alice);
             ChangeTitle "Z"; ChangeUrl "z.com"; ClickAdd] in
  In (DbInsert "Z" "https://z.com" "A") (calls (run initial_world es)) /\
  "Z" <> "" /\ carries_scheme "https://z.com" /\
  finalUrl "https://z.com" = "https://z.com".
Proof.
  intros es.
  assert (I : In (DbInsert "Z" "https://z.com" "A")
                 (calls (run initial_world es)))
    by (vm_compute; intuition).
  split; [exact I|].
  exact (issued_inserts_are_well_formed es "Z" "https://z.com" "A" I).
Defined.

Lemma typing_world_holds_channel : channels typing_world <> [].
Proof. simpl. discriminate. Defined.

Lemma identity_report_witness :
  listening typing_world = true /\
  channels typing_world <> [] /\
  fst (runState (onAuthStateChange (Some bob)) typing_world) = inl refusal /\
  channels (step typing_world (AuthStateChange (Some bob)))
  = [mkChannel 0 "A"].
Proof.
  split; [reflexivity|]. split; [exact typing_world_holds_channel|].
  destruct (identity_report_outcome typing_world bob eq_refl)
    as (_ & _ & R).
  destruct (R typing_world_holds_channel) as (T & C & _).
  split; [exact T | exact C].
Defined.

Lemma identity_report_keeps_witness :
  listening typing_world = true /\
  let w2 := run typing_world
              [AuthStateChange (Some bob);
               Resolve 0 (SelectResult {| data := None;
                                          error := Some "offline" |})] in
  user (react w2) = Some bob /\ bookmarks (react w2) = [row1; row2].
Proof.
  split; [reflexivity|].
  destruct (identity_report_keeps_collection_until_answer typing_world bob
              None "offline" eq_refl) as (_ & _ & _ & _ & U & B).
  split; [exact U | exact B].
Defined.

Lemma held_channel_witness :
  channels typing_world = [mkChannel 0 "A"] /\
  let w' := run typing_world
              [ClickLogout; Resolve 0 SignOutDone; AuthStateChange None;
               AuthStateChange (Some bob)] in
  channels w' = [mkChannel 0 "A"] /\
  calls (step w' (PostgresChanges 0)) = calls w' ++ [DbSelect "A"].
Proof.
  split; [reflexivity|].
  exact (held_channel_is_never_replaced typing_world
           [ClickLogout; Resolve 0 SignOutDone; AuthStateChange None;
            AuthStateChange (Some bob)]
           (mkChannel 0 "A") [] eq_refl).
Defined.

Lemma scheme_test_witness :
  test scheme_regex "HTTP://x" = true /\
  finalUrl ("HTTP://x" ++ " y z") = "HTTP://x y z".
Proof.
  split; [reflexivity|].
  destruct (scheme_test_ignores_rest "HTTP://x" " y z" eq_refl) as (_ & F).
  exact F.
Defined.

Lemma logout_witness :
  loading (react typing_world) = false /\
  render (react (run typing_world [ClickLogout; Resolve 0 SignOutDone]))
  = LoginScreen ClickLogin.
Proof.
  split; [reflexivity|].
  destruct (logout_clears_on_answer typing_world)
    as (_ & _ & _ & _ & _ & _ & R).
  exact (R eq_refl).
Defined.

Lemma unmount_witness :
  In (mkChannel 0 "A") (channels typing_world) /\
  exists userId,
    calls (run typing_world [Unmount; PostgresChanges 0])
    = calls (step typing_world Unmount) ++ [DbSelect userId].
Proof.
  assert (I : In (mkChannel 0 "A") (channels typing_world))
    by (left; reflexivity).
  split; [exact I|].
  destruct (unmount_stops_auth_events_only typing_world)
    as (_ & _ & _ & _ & Q).
  exact (Q (mkChannel 0 "A") I).
Defined.
